(** * The must-gather planning tools of the core toolset

    A shallow embedding of [pkg/toolsets/core/mustgather.go] (the tool
    registered as [plan_mustgather]) and of
    [pkg/toolsets/core/must_gather_plan.go] (the tool registered as
    [must_gather_plan]), followed by the properties of the plan they write.

    Go strings are byte strings ([string]); the argument bag
    [map[string]any] is a [gmap string Value]; slices are lists; a handler
    ends in one of four ways, collected in [Outcome]. *)

From Stdlib Require Import Ascii String.
From stdpp Require Import base option list gmap strings.

Local Open Scope string_scope.

(** ** Strings as the Go standard library treats them *)

Module GoStrings.

(** [len(s)] *)
Definition len (s : string) : nat := String.length s.

(** [s[:n]], for [n <= len(s)] *)
Definition take (n : nat) (s : string) : string := String.substring 0 n s.

Definition isUpper (c : ascii) : bool :=
  (65 <=? nat_of_ascii c)%nat && (nat_of_ascii c <=? 90)%nat.

Definition lowerByte (c : ascii) : ascii :=
  if isUpper c then ascii_of_nat (nat_of_ascii c + 32) else c.

(** [strings.ToLower] on ASCII text (the only text it is applied to here
    is the base32 output of [rand.Text]). *)
Fixpoint ToLower (s : string) : string :=
  match s with
  | EmptyString => EmptyString
  | String c rest => String (lowerByte c) (ToLower rest)
  end.

(** [strings.Split(s, sep)] for a one-byte separator: the pieces between
    the separators, [n+1] of them for [n] separators. *)
Fixpoint Split (s : string) (sep : ascii) : list string :=
  match s with
  | EmptyString => [EmptyString]
  | String c rest =>
      if Ascii.eqb c sep then EmptyString :: Split rest sep
      else match Split rest sep with
           | [] => [String c EmptyString]
           | piece :: pieces => String c piece :: pieces
           end
  end.

(** [strings.SplitN(s, sep, 2)] for a one-byte separator: cut at the first
    separator, or the whole string alone when there is none. *)
Fixpoint SplitN2 (s : string) (sep : ascii) : list string :=
  match s with
  | EmptyString => [EmptyString]
  | String c rest =>
      if Ascii.eqb c sep then [EmptyString; rest]
      else match SplitN2 rest sep with
           | piece :: pieces => String c piece :: pieces
           | [] => [String c EmptyString]
           end
  end.

(** [c < utf8.RuneSelf]: a byte that is a rune of its own. *)
Definition isAscii (c : ascii) : bool := (nat_of_ascii c <? 128)%nat.

(** [!utf8.RuneStart(c)]: a byte [10xxxxxx], which continues a rune and
    never starts one. *)
Definition isContinuation (c : ascii) : bool :=
  (128 <=? nat_of_ascii c)%nat && (nat_of_ascii c <? 192)%nat.

(** [unicode.IsSpace] on the runes of a UTF-8 string. The one-byte runes:
    tab, line feed, vertical tab, form feed, carriage return and space. *)
Definition isSpace (c : ascii) : bool :=
  let n := nat_of_ascii c in
  ((9 <=? n)%nat && (n <=? 13)%nat) || (n =? 32)%nat.

(** The two-byte runes: U+0085 (C2 85) and U+00A0 (C2 A0). *)
Definition isSpace2 (c0 c1 : ascii) : bool :=
  let b0 := nat_of_ascii c0 in
  let b1 := nat_of_ascii c1 in
  (b0 =? 194)%nat && ((b1 =? 133)%nat || (b1 =? 160)%nat).

(** The three-byte runes: U+1680 (E1 9A 80), U+2000 to U+200A (E2 80 80 to
    E2 80 8A), U+2028 and U+2029 (E2 80 A8, E2 80 A9), U+202F (E2 80 AF),
    U+205F (E2 81 9F) and U+3000 (E3 80 80). *)
Definition isSpace3 (c0 c1 c2 : ascii) : bool :=
  let b0 := nat_of_ascii c0 in
  let b1 := nat_of_ascii c1 in
  let b2 := nat_of_ascii c2 in
  ((b0 =? 225)%nat && (b1 =? 154)%nat && (b2 =? 128)%nat)
  || ((b0 =? 226)%nat && (b1 =? 128)%nat
      && (((128 <=? b2)%nat && (b2 <=? 138)%nat)
          || (b2 =? 168)%nat || (b2 =? 169)%nat || (b2 =? 175)%nat))
  || ((b0 =? 226)%nat && (b1 =? 129)%nat && (b2 =? 159)%nat)
  || ((b0 =? 227)%nat && (b1 =? 128)%nat && (b2 =? 128)%nat).

(** [strings.TrimLeftFunc(s, unicode.IsSpace)]: the white-space runes at
    the front are dropped, one rune at a time. Any other byte sequence,
    well-formed or not, decodes to a rune that is no white space and ends
    the loop. *)
Fixpoint TrimLeft (s : string) : string :=
  match s with
  | EmptyString => EmptyString
  | String c0 r0 =>
      if isSpace c0 then TrimLeft r0
      else match r0 with
           | EmptyString => s
           | String c1 r1 =>
               if isSpace2 c0 c1 then TrimLeft r1
               else match r1 with
                    | EmptyString => s
                    | String c2 r2 => if isSpace3 c0 c1 c2 then TrimLeft r2 else s
                    end
           end
  end.

(** [s] is white-space runes from end to end. *)
Definition isAllSpace (s : string) : bool :=
  match TrimLeft s with EmptyString => true | String _ _ => false end.

(** [strings.TrimRightFunc(s, unicode.IsSpace)]: the white-space runes at
    the end are dropped. A white-space rune starts with a byte that is no
    continuation byte and goes on with continuation bytes only, so the
    runes [utf8.DecodeLastRuneInString] finds going backwards are the ones
    found going forwards from where the white space at the end begins:
    what is dropped is the longest suffix that is white space throughout. *)
Fixpoint TrimRight (s : string) : string :=
  match s with
  | EmptyString => EmptyString
  | String c rest => if isAllSpace s then EmptyString else String c (TrimRight rest)
  end.

(** [strings.TrimSpace]: white space, as Unicode defines it, is removed
    from both ends. *)
Definition TrimSpace (s : string) : string := TrimRight (TrimLeft s).

(** [strings.HasPrefix(s, p)] *)
Fixpoint HasPrefix (s p : string) : bool :=
  match p, s with
  | EmptyString, _ => true
  | String a p', String b s' => Ascii.eqb a b && HasPrefix s' p'
  | String _ _, EmptyString => false
  end.

(** [strings.Contains(s, sub)] *)
Fixpoint Contains (s sub : string) : bool :=
  HasPrefix s sub ||
  match s with
  | EmptyString => false
  | String _ rest => Contains rest sub
  end.

(** [strings.Join(elems, sep)] *)
Definition Join (elems : list string) (sep : string) : string :=
  String.concat sep elems.

End GoStrings.

(** ** [path.Clean]

    The Go library's lexical path normalisation, element by element: an
    empty element (doubled or trailing slash) and [.] are dropped; [..]
    removes the element before it when there is one to remove, is dropped at
    the root, and is kept at the front of a relative path; the empty result
    is [.]. *)

Module GoPath.
Import GoStrings.

(** The output buffer: the elements kept so far, last one first, and how
    many of the oldest are [..] elements that cannot be backtracked over. *)
Record lazybuf := { kept : list string; dotdot : nat }.

Definition cleanStep (rooted : bool) (out : lazybuf) (elem : string) : lazybuf :=
  if (elem =? "") || (elem =? ".") then out
  else if elem =? ".." then
    if (dotdot out <? length (kept out))%nat
    then {| kept := tail (kept out); dotdot := dotdot out |}
    else if rooted then out
    else {| kept := ".." :: kept out; dotdot := S (length (kept out)) |}
  else {| kept := elem :: kept out; dotdot := dotdot out |}.

Definition Clean (path : string) : string :=
  if path =? "" then "."
  else
    let rooted := HasPrefix path "/" in
    let out := fold_left (cleanStep rooted) (Split path "/")
                         {| kept := []; dotdot := 0 |} in
    let body := Join (rev (kept out)) "/" in
    if rooted then "/" +:+ body
    else if body =? "" then "." else body.

End GoPath.

(** ** How a handler ends *)

(** The run-time panics the handlers can raise. *)
Inductive PanicReason :=
| InterfaceConversion                 (* a failed [x.(T)] type assertion *)
| IndexOutOfRange (index size : nat). (* [s[index]] with [len(s) = size] *)

(** A handler either goes on with a value, returns
    [api.NewToolCallResult("", err), nil] (the tool's visible error result),
    returns [nil, err] (a propagated low-level error), or panics. The final
    [Ret text] of a handler is [api.NewToolCallResult(text, nil), nil]. *)
Inductive Outcome (A : Type) :=
| Ret (a : A)
| ToolError (msg : string)
| Fatal (msg : string)
| Panic (why : PanicReason).
Arguments Ret {A} a.
Arguments ToolError {A} msg.
Arguments Fatal {A} msg.
Arguments Panic {A} why.

#[global] Instance Outcome_ret : MRet Outcome := @Ret.
#[global] Instance Outcome_bind : MBind Outcome := fun A B f m =>
  match m with
  | Ret a => f a
  | ToolError msg => ToolError msg
  | Fatal msg => Fatal msg
  | Panic why => Panic why
  end.
#[global] Instance Outcome_fmap : FMap Outcome := fun A B f m =>
  match m with
  | Ret a => Ret (f a)
  | ToolError msg => ToolError msg
  | Fatal msg => Fatal msg
  | Panic why => Panic why
  end.

(** The [(value, error)] pair a collaborator returns. *)
Inductive GoResult (A : Type) :=
| Ok (a : A)
| Err (err : string).
Arguments Ok {A} a.
Arguments Err {A} err.

(** ** The argument bag *)

(** An item of a decoded JSON array: a string, or a value of another
    type. *)
Inductive Item :=
| IString (s : string)
| IOther.

(** The dynamic values of [map[string]any] the handlers look at: [nil], a
    [string], a [bool], a [[]string] (which only a caller written in Go can
    pass), a [[]any] (what a JSON array is decoded to, whatever its items
    are), or a value of any other dynamic type. *)
Inductive Value :=
| VNil
| VString (s : string)
| VBool (b : bool)
| VStrings (l : list string)
| VArray (items : list Item)
| VOther.

(** [args[key]] when it is [!= nil]: a missing key and a [nil] value are
    the same to the handler. *)
Definition present (args : gmap string Value) (key : string) : option Value :=
  match args !! key with
  | Some VNil => None
  | found => found
  end.

(** [v.(string)], [v.(bool)], [v.([]string)]: the one-result type assertion
    panics on another dynamic type. *)
Definition assertString (v : Value) : Outcome string :=
  match v with VString s => Ret s | _ => Panic InterfaceConversion end.
Definition assertBool (v : Value) : Outcome bool :=
  match v with VBool b => Ret b | _ => Panic InterfaceConversion end.
Definition assertStrings (v : Value) : Outcome (list string) :=
  match v with VStrings l => Ret l | _ => Panic InterfaceConversion end.

(** [s, _ := args[key].(string)]: the two-result assertion yields the zero
    value instead of panicking. *)
Definition stringOrZero (args : gmap string Value) (key : string) : string :=
  match args !! key with
  | Some (VString s) => s
  | _ => ""
  end.

(** [x = dflt; if args[key] != nil { x = read(args[key]) }] *)
Definition argOr {A} (args : gmap string Value) (key : string)
    (read : Value → Outcome A) (dflt : A) : Outcome A :=
  match present args key with
  | Some v => read v
  | None => Ret dflt
  end.

(** ** The resource descriptors (the fields the handlers set) *)

Record TypeMeta := {
  TypeMeta_Kind : string;
  TypeMeta_APIVersion : string }.

Record ObjectMeta := {
  ObjectMeta_Name : string;
  ObjectMeta_GenerateName : string;
  ObjectMeta_Namespace : string }.

Record EnvVar := { EnvVar_Name : string; EnvVar_Value : string }.

Record VolumeMount := { VolumeMount_Name : string; VolumeMount_MountPath : string }.

Record Container := {
  Container_Name : string;
  Container_Image : string;
  Container_ImagePullPolicy : string;
  Container_Command : list string;
  Container_Env : list EnvVar;
  Container_VolumeMounts : list VolumeMount }.

(** A volume; [Volume_EmptyDir] says that the [EmptyDir] source is set. *)
Record Volume := { Volume_Name : string; Volume_EmptyDir : bool }.

Record Toleration := { Toleration_Operator : string }.

Record PodSpec := {
  PodSpec_ServiceAccountName : string;
  PodSpec_NodeName : string;
  PodSpec_PriorityClassName : string;
  PodSpec_RestartPolicy : string;
  PodSpec_Volumes : list Volume;
  PodSpec_Containers : list Container;
  PodSpec_HostNetwork : bool;
  PodSpec_NodeSelector : gmap string string;
  PodSpec_Tolerations : list Toleration }.

Record Pod := {
  Pod_TypeMeta : TypeMeta;
  Pod_ObjectMeta : ObjectMeta;
  Pod_Spec : PodSpec }.

Record Namespace := {
  Namespace_TypeMeta : TypeMeta;
  Namespace_ObjectMeta : ObjectMeta }.

Record ServiceAccount := {
  ServiceAccount_TypeMeta : TypeMeta;
  ServiceAccount_ObjectMeta : ObjectMeta }.

Record RoleRef := {
  RoleRef_APIGroup : string;
  RoleRef_Kind : string;
  RoleRef_Name : string }.

Record Subject := {
  Subject_Kind : string;
  Subject_Name : string;
  Subject_Namespace : string }.

Record ClusterRoleBinding := {
  ClusterRoleBinding_TypeMeta : TypeMeta;
  ClusterRoleBinding_ObjectMeta : ObjectMeta;
  ClusterRoleBinding_RoleRef : RoleRef;
  ClusterRoleBinding_Subjects : list Subject }.

(** The zero values Go gives to the fields a composite literal leaves out. *)
Definition zeroTypeMeta : TypeMeta :=
  {| TypeMeta_Kind := ""; TypeMeta_APIVersion := "" |}.
Definition zeroContainer : Container :=
  {| Container_Name := ""; Container_Image := ""; Container_ImagePullPolicy := "";
     Container_Command := []; Container_Env := []; Container_VolumeMounts := [] |}.

(** [TypeMeta] declares both fields [json:",omitempty"]: the serializer
    writes each of them only when it is not the empty string. *)
Definition typeMetaFields (t : TypeMeta) : list (string * string) :=
  (if TypeMeta_APIVersion t =? "" then [] else [("apiVersion", TypeMeta_APIVersion t)])
  ++ (if TypeMeta_Kind t =? "" then [] else [("kind", TypeMeta_Kind t)]).

(** What [yaml.Marshal] is handed: a pointer to one of the descriptors (the
    namespace pointer is [nil] when no namespace descriptor was made). *)
Inductive Object :=
| ONamespace (ns : option Namespace)
| OServiceAccount (sa : ServiceAccount)
| OClusterRoleBinding (crb : ClusterRoleBinding)
| OPod (pod : Pod).

(** An item of the namespace list as the callback of [EachListItem] sees it:
    it converts to an unstructured object with a name, or the conversion
    fails. *)
Inductive NsItem :=
| NsNamed (name : string)
| NsUnconvertible (err : string).

(** [api.ToolHandlerParams]: the arguments and the namespace listing the
    cluster client answers with. *)
Record ToolHandlerParams := {
  GetArguments : gmap string Value;
  NamespacesList : GoResult (list NsItem) }.

Definition nl : string := String (ascii_of_nat 10) EmptyString.

(** ** [mustgather.go]: the [plan_mustgather] tool *)

Module Mustgather.
Import GoStrings.

Definition defaultGatherSourceDir : string := "/must-gather/".
Definition defaultMustGatherImage : string :=
  "registry.redhat.io/openshift4/ose-must-gather:latest".
Definition defaultGatherCmd : string := "/usr/bin/gather".

(** The values [mustGatherPlan] holds in local variables once it has read
    its arguments. *)
Record PlanConfig := {
  nodeName : string;
  nodeSelector : gmap string string;
  hostNetwork : bool;
  sourceDir : string;
  namespace : string;
  keepNamespace : bool;
  gatherCmd : string;
  allImages : bool;
  images : list string;
  timeout : string;
  since : string }.

(** What the handler has built when it starts to write. *)
Record ResourcePlan := {
  pod : Pod;
  namespaceExists : bool;
  namespaceObj : option Namespace;
  serviceAccount : ServiceAccount;
  clusterRoleBindingName : string;
  clusterRoleBinding : ClusterRoleBinding }.

(** [parseNodeSelector]: [result[TrimSpace(kv[0])] = TrimSpace(kv[1])] for
    each comma-separated pair that has an [=]; a later pair overwrites an
    earlier one with the same key. *)
Definition parseNodeSelector (selector : string) : gmap string string :=
  fold_left
    (fun result pair =>
       match SplitN2 (TrimSpace pair) "=" with
       | [k; v] => <[TrimSpace k := TrimSpace v]> result
       | _ => result
       end)
    (Split selector ",") ∅.

(** The [InputSchema] of lines 41-95: the declared type of each property. *)
Inductive SchemaType := TString | TBoolean | TArrayOfString.

Definition InputSchema : list (string * SchemaType) :=
  [("node_name", TString); ("node_selector", TString); ("host_network", TBoolean);
   ("gather_command", TString); ("all_component_images", TBoolean);
   ("images", TArrayOfString); ("source_dir", TString); ("timeout", TString);
   ("namespace", TString); ("keep_namespace", TBoolean); ("since", TString)].

(** A value decoded from a JSON document that is valid for a property of
    type [ty]: a string, a boolean, an array all of whose items are
    strings. *)
Definition isString (item : Item) : bool :=
  match item with IString _ => true | IOther => false end.

Definition validFor (ty : SchemaType) (v : Value) : bool :=
  match ty, v with
  | TString, VString _ => true
  | TBoolean, VBool _ => true
  | TArrayOfString, VArray items => forallb isString items
  | _, _ => false
  end.

(** The arguments are valid for the schema the tool declares: each property
    that is given has its declared type (the schema requires none). *)
Definition schemaValid (args : gmap string Value) : bool :=
  forallb (fun property =>
             match args !! fst property with
             | Some v => validFor (snd property) v
             | None => true
             end)
          InputSchema.

(** The Go types [mustGatherPlan] asserts its arguments to have. *)
Inductive GoType := GoString | GoBool | GoStringSlice.

(** [v.(T)] does not panic. *)
Definition hasGoType (T : GoType) (v : Value) : bool :=
  match T, v with
  | GoString, VString _ => true
  | GoBool, VBool _ => true
  | GoStringSlice, VStrings _ => true
  | _, _ => false
  end.

(** The arguments in the order lines 117-174 read them, each with the type
    of the one-result assertion it is read with. *)
Definition assertions : list (string * GoType) :=
  [("node_name", GoString); ("node_selector", GoString); ("host_network", GoBool);
   ("source_dir", GoString); ("namespace", GoString); ("keep_namespace", GoBool);
   ("gather_command", GoString); ("all_component_images", GoBool);
   ("images", GoStringSlice); ("timeout", GoString); ("since", GoString)].

(** The argument named [key] is left out, is [nil], or has the Go type
    [T]. *)
Definition argAsserted (args : gmap string Value) (key : string) (T : GoType)
    : bool :=
  match present args key with
  | Some v => hasGoType T v
  | None => true
  end.

(** The assertions that come before the one on [key]. *)
Fixpoint before (key : string) (l : list (string * GoType)) : list (string * GoType) :=
  match l with
  | [] => []
  | assertion :: rest =>
      if fst assertion =? key then [] else assertion :: before key rest
  end.

(** Every argument read before [key] passes its assertion. *)
Definition assertedBefore (key : string) (args : gmap string Value) : bool :=
  forallb (fun assertion => argAsserted args (fst assertion) (snd assertion))
          (before key assertions).

(** Every argument passes its assertion. *)
Definition asserted (args : gmap string Value) : bool :=
  forallb (fun assertion => argAsserted args (fst assertion) (snd assertion))
          assertions.

Section Handler.

(** The collaborators: [time.ParseDuration], [yaml.Marshal], and the
    bytes [crypto/rand] hands out ([randByte call i] is byte [i] of the
    [call]-th read). *)
Variable time_ParseDuration : string → GoResult Z.
Variable yaml_Marshal : Object → GoResult string.
Variable randByte : nat → nat → nat.

Definition base32alphabet : string := "ABCDEFGHIJKLMNOPQRSTUVWXYZ234567".

(** [rand.Text()]: 26 random bytes, each replaced by the letter of
    [base32alphabet] at its value modulo 32. *)
Definition rand_Text (call : nat) : string :=
  string_of_list_ascii
    (map (fun i => default "A"%char (String.get (randByte call i mod 32) base32alphabet))
         (seq 0 26)).

(** [generateRandomString]: [r[:length]] of the lower-cased random text,
    extended by a recursive call while it is too short. Each round adds
    26 bytes, so [rounds = length] rounds are never used up. *)
Fixpoint generateRandomStringFrom (rounds call length : nat) : string :=
  let r := ToLower (rand_Text call) in
  match rounds with
  | O => take length r
  | S rounds' =>
      if (len r <? length)%nat
      then take length (r +:+ generateRandomStringFrom rounds' (S call) (length - len r))
      else take length r
  end.

Definition generateRandomString (length : nat) : string :=
  generateRandomStringFrom length 0 length.

(** Lines 156-165: the [timeout] argument is checked and wrapped around
    the gather command. *)
Definition readTimeout (gatherCmd : string) (v : Value) : Outcome (string * string) :=
  timeout ← assertString v;
  match time_ParseDuration timeout with
  | Err _ => ToolError "timeout duration is not valid"
  | Ok _ => Ret (timeout, "/usr/bin/timeout " +:+ timeout +:+ " " +:+ gatherCmd)
  end.

(** Lines 167-174 *)
Definition readSince (v : Value) : Outcome string :=
  since ← assertString v;
  match time_ParseDuration since with
  | Err _ => ToolError "since duration is not valid"
  | Ok _ => Ret since
  end.

(** Lines 110-174: the arguments are read in this order, each with a
    panicking type assertion; an unparsable [timeout] or [since] ends
    the call with the tool's error result. *)
Definition resolveArguments (args : gmap string Value) : Outcome PlanConfig :=
  nodeName ← argOr args "node_name" assertString "";
  nodeSelector ← argOr args "node_selector"
                   (fun v => parseNodeSelector <$> assertString v) ∅;
  hostNetwork ← argOr args "host_network" assertBool false;
  sourceDir ← argOr args "source_dir"
                (fun v => GoPath.Clean <$> assertString v) defaultGatherSourceDir;
  namespace ← argOr args "namespace" assertString
                ("openshift-must-gather-" +:+ generateRandomString 6);
  keepNamespace ← argOr args "keep_namespace" assertBool false;
  gatherCmd ← argOr args "gather_command" assertString defaultGatherCmd;
  allImages ← argOr args "all_component_images" assertBool false;
  images ← argOr args "images" assertStrings [];
  timed ← argOr args "timeout" (readTimeout gatherCmd) ("", gatherCmd);
  since ← argOr args "since" readSince "";
  Ret {| nodeName := nodeName; nodeSelector := nodeSelector;
         hostNetwork := hostNetwork; sourceDir := sourceDir;
         namespace := namespace; keepNamespace := keepNamespace;
         gatherCmd := snd timed; allImages := allImages; images := images;
         timeout := fst timed; since := since |}.

(** Lines 176-182 *)
Definition envVars (cfg : PlanConfig) : list EnvVar :=
  if since cfg =? "" then []
  else [{| EnvVar_Name := "MUST_GATHER_SINCE"; EnvVar_Value := since cfg |}].

(** Lines 184-196 *)
Definition gatherContainerTemplate (cfg : PlanConfig) : Container :=
  {| Container_Name := "gather";
     Container_Image := defaultMustGatherImage;
     Container_ImagePullPolicy := "IfNotPresent";
     Container_Command := [gatherCmd cfg];
     Container_Env := envVars cfg;
     Container_VolumeMounts :=
       [{| VolumeMount_Name := "must-gather-collection";
           VolumeMount_MountPath := sourceDir cfg |}] |}.

(** [s[i] = c]: an index outside [0 .. len(s)-1] panics. *)
Definition setIndex (s : list Container) (i : nat) (c : Container)
    : Outcome (list Container) :=
  if (i <? length s)%nat then Ret (<[i := c]> s)
  else Panic (IndexOutOfRange i (length s)).

(** [c.Image = image] *)
Definition setImage (c : Container) (image : string) : Container :=
  {| Container_Name := Container_Name c;
     Container_Image := image;
     Container_ImagePullPolicy := Container_ImagePullPolicy c;
     Container_Command := Container_Command c;
     Container_Env := Container_Env c;
     Container_VolumeMounts := Container_VolumeMounts c |}.

(** [s[i].Image = image] *)
Definition setImageAt (s : list Container) (i : nat) (image : string)
    : Outcome (list Container) :=
  match s !! i with
  | Some c => Ret (<[i := setImage c image]> s)
  | None => Panic (IndexOutOfRange i (length s))
  end.

(** Lines 200-203: the body of [for i, image := range images], from
    index [i] on. The [DeepCopy] of the template is the template: the
    descriptors here are values, nothing is shared. *)
Fixpoint rangeImages (template : Container) (i : nat) (images : list string)
    (gatherContainers : list Container) : Outcome (list Container) :=
  match images with
  | [] => Ret gatherContainers
  | image :: rest =>
      gatherContainers ← setIndex gatherContainers i template;
      gatherContainers ← setImageAt gatherContainers i image;
      rangeImages template (S i) rest gatherContainers
  end.

(** Lines 198-203: the slice is made with length 1. *)
Definition buildGatherContainers (cfg : PlanConfig) : Outcome (list Container) :=
  let template := gatherContainerTemplate cfg in
  let gatherContainers := replicate 1 zeroContainer in
  gatherContainers ← setIndex gatherContainers 0 template;
  rangeImages template 0 (images cfg) gatherContainers.

Definition serviceAccountName : string := "must-gather-collector".

(** Lines 233-243 *)
Definition waitContainer : Container :=
  {| Container_Name := "wait";
     Container_Image := "registry.redhat.io/ubi9/ubi-minimal";
     Container_ImagePullPolicy := "IfNotPresent";
     Container_Command := ["/bin/bash"; "-c"; "sleep infinity"];
     Container_Env := [];
     Container_VolumeMounts :=
       [{| VolumeMount_Name := "must-gather-collection";
           VolumeMount_MountPath := "/must-gather" |}] |}.

(** Lines 214-252: the pod literal sets no [TypeMeta]. *)
Definition buildPod (cfg : PlanConfig) : Outcome Pod :=
  gatherContainers ← buildGatherContainers cfg;
  Ret {| Pod_TypeMeta := zeroTypeMeta;
         Pod_ObjectMeta :=
           {| ObjectMeta_Name := "";
              ObjectMeta_GenerateName := "must-gather-";
              ObjectMeta_Namespace := namespace cfg |};
         Pod_Spec :=
           {| PodSpec_ServiceAccountName := serviceAccountName;
              PodSpec_NodeName := nodeName cfg;
              PodSpec_PriorityClassName := "system-cluster-critical";
              PodSpec_RestartPolicy := "Never";
              PodSpec_Volumes :=
                [{| Volume_Name := "must-gather-collection"; Volume_EmptyDir := true |}];
              PodSpec_Containers := gatherContainers ++ [waitContainer];
              PodSpec_HostNetwork := hostNetwork cfg;
              PodSpec_NodeSelector := nodeSelector cfg;
              PodSpec_Tolerations := [{| Toleration_Operator := "Exists" |}] |} |}.

(** Lines 259-276: the callback of [EachListItem] looks at an item only
    while no match was found; a conversion failure stops the iteration
    with its error. *)
Fixpoint checkNamespaces (namespace : string) (items : list NsItem)
    (namespaceExists : bool) : GoResult bool :=
  match items with
  | [] => Ok namespaceExists
  | item :: rest =>
      if negb namespaceExists then
        match item with
        | NsUnconvertible err => Err err
        | NsNamed name =>
            checkNamespaces namespace rest
              (if name =? namespace then true else namespaceExists)
        end
      else checkNamespaces namespace rest namespaceExists
  end.

(** Lines 278-289 *)
Definition buildNamespace (cfg : PlanConfig) (namespaceExists : bool)
    : option Namespace :=
  if negb namespaceExists then
    Some {| Namespace_TypeMeta :=
              {| TypeMeta_Kind := "Namespace"; TypeMeta_APIVersion := "v1" |};
            Namespace_ObjectMeta :=
              {| ObjectMeta_Name := namespace cfg;
                 ObjectMeta_GenerateName := "";
                 ObjectMeta_Namespace := "" |} |}
  else None.

(** Lines 291-300 *)
Definition buildServiceAccount (cfg : PlanConfig) : ServiceAccount :=
  {| ServiceAccount_TypeMeta :=
       {| TypeMeta_Kind := "ServiceAccount"; TypeMeta_APIVersion := "v1" |};
     ServiceAccount_ObjectMeta :=
       {| ObjectMeta_Name := serviceAccountName;
          ObjectMeta_GenerateName := "";
          ObjectMeta_Namespace := namespace cfg |} |}.

(** Line 302 *)
Definition bindingName (cfg : PlanConfig) : string :=
  "must-gather-collector-" +:+ namespace cfg.

(** Lines 303-323 *)
Definition buildClusterRoleBinding (cfg : PlanConfig) : ClusterRoleBinding :=
  {| ClusterRoleBinding_TypeMeta :=
       {| TypeMeta_Kind := "ClusterRoleBinding";
          TypeMeta_APIVersion := "rbac.authorization.k8s.io/v1" |};
     ClusterRoleBinding_ObjectMeta :=
       {| ObjectMeta_Name := bindingName cfg;
          ObjectMeta_GenerateName := "";
          ObjectMeta_Namespace := "" |};
     ClusterRoleBinding_RoleRef :=
       {| RoleRef_APIGroup := "rbac.authorization.k8s.io";
          RoleRef_Kind := "ClusterRole";
          RoleRef_Name := "cluster-admin" |};
     ClusterRoleBinding_Subjects :=
       [{| Subject_Kind := "ServiceAccount";
           Subject_Name := serviceAccountName;
           Subject_Namespace := namespace cfg |}] |}.

(** Lines 184-323: the descriptors, in the order the handler makes them;
    the pod comes before the namespace listing is asked for. *)
Definition buildPlan (cfg : PlanConfig) (listing : GoResult (list NsItem))
    : Outcome ResourcePlan :=
  pod ← buildPod cfg;
  match listing with
  | Err err => ToolError ("failed to list namespaces: " +:+ err)
  | Ok nsList =>
      match checkNamespaces (namespace cfg) nsList false with
      | Err err => ToolError ("failed to check namespaces list: " +:+ err)
      | Ok namespaceExists =>
          Ret {| pod := pod;
                 namespaceExists := namespaceExists;
                 namespaceObj := buildNamespace cfg namespaceExists;
                 serviceAccount := buildServiceAccount cfg;
                 clusterRoleBindingName := bindingName cfg;
                 clusterRoleBinding := buildClusterRoleBinding cfg |}
      end
  end.

(** Lines 326-336: the comment lines and the blank line before the
    fence. *)
Definition planComments (cfg : PlanConfig) (plan : ResourcePlan) : string :=
  "# Save the following content to a file (e.g., must-gather-plan.yaml) and apply it with 'kubectl apply -f must-gather-plan.yaml'" +:+ nl
  +:+ "# Monitor the pod's logs to see when the must-gather process is complete:" +:+ nl
  +:+ ("# kubectl logs -f -n " +:+ namespace cfg +:+ " <pod-name> -c gather" +:+ nl)
  +:+ "# Once the logs indicate completion, copy the results with:" +:+ nl
  +:+ ("# kubectl cp -n " +:+ namespace cfg
         +:+ " <pod-name>:/must-gather ./must-gather-output -c wait" +:+ nl)
  +:+ (if negb (keepNamespace cfg) then
         "# Finally, clean up the resources with:" +:+ nl
         +:+ ("# kubectl delete ns " +:+ namespace cfg +:+ nl)
         +:+ ("# kubectl delete clusterrolebinding "
                +:+ clusterRoleBindingName plan +:+ nl)
       else "")
  +:+ nl.

(** [yaml.Marshal(obj)] with [fmt.Errorf(what + ": %w", err)] returned as
    [nil, err] on failure. *)
Definition marshalOr (what : string) (obj : Object) : Outcome string :=
  match yaml_Marshal obj with
  | Ok bytes => Ret bytes
  | Err err => Fatal (what +:+ ": " +:+ err)
  end.

(** Lines 325-369: what is written to the [strings.Builder], in order. *)
Definition renderPlan (cfg : PlanConfig) (plan : ResourcePlan) : Outcome string :=
  let result := planComments cfg plan in
  let result := result +:+ "```yaml" in
  result ←
    (if negb (namespaceExists plan) then
       namespaceYaml ← marshalOr "failed to marshal namespace to yaml"
                         (ONamespace (namespaceObj plan));
       Ret (result +:+ ("---" +:+ nl) +:+ namespaceYaml)
     else Ret result);
  serviceAccountYaml ← marshalOr "failed to marshal service account to yaml"
                         (OServiceAccount (serviceAccount plan));
  let result := result +:+ ("---" +:+ nl) +:+ serviceAccountYaml in
  clusterRoleBindingYaml ← marshalOr "failed to marshal cluster role binding to yaml"
                             (OClusterRoleBinding (clusterRoleBinding plan));
  let result := result +:+ ("---" +:+ nl) +:+ clusterRoleBindingYaml in
  podYaml ← marshalOr "failed to marshal pod to yaml" (OPod (pod plan));
  let result := result +:+ podYaml in
  Ret (result +:+ "```").

(** [mustGatherPlan], lines 109-370 *)
Definition mustGatherPlan (params : ToolHandlerParams) : Outcome string :=
  cfg ← resolveArguments (GetArguments params);
  plan ← buildPlan cfg (NamespacesList params);
  renderPlan cfg plan.

End Handler.

End Mustgather.

(** ** [must_gather_plan.go]: the [must_gather_plan] tool *)

Module MustGatherPlan.

Section Handler.

(** The collaborators: [yaml.Marshal] and [rand.String] of
    [k8s.io/apimachinery/pkg/util/rand]. *)
Variable yaml_Marshal : Object → GoResult string.
Variable rand_String : nat → string.

Definition marshalOr (what : string) (obj : Object) : Outcome string :=
  match yaml_Marshal obj with
  | Ok bytes => Ret bytes
  | Err err => Fatal (what +:+ ": " +:+ err)
  end.

(** Lines 62-66 *)
Definition namespaceNameOf (suffix : string) : string :=
  "openshift-must-gather-" +:+ suffix.
Definition podNameOf (suffix : string) : string := "must-gather-" +:+ suffix.
Definition serviceAccountName : string := "must-gather-admin".
Definition bindingNameOf (suffix : string) : string :=
  namespaceNameOf suffix +:+ "-" +:+ serviceAccountName.

(** Lines 68-76 *)
Definition buildNamespace (namespaceName : string) : Namespace :=
  {| Namespace_TypeMeta :=
       {| TypeMeta_Kind := "Namespace"; TypeMeta_APIVersion := "v1" |};
     Namespace_ObjectMeta :=
       {| ObjectMeta_Name := namespaceName;
          ObjectMeta_GenerateName := "";
          ObjectMeta_Namespace := "" |} |}.

(** Lines 78-87 *)
Definition buildServiceAccount (namespaceName : string) : ServiceAccount :=
  {| ServiceAccount_TypeMeta :=
       {| TypeMeta_Kind := "ServiceAccount"; TypeMeta_APIVersion := "v1" |};
     ServiceAccount_ObjectMeta :=
       {| ObjectMeta_Name := serviceAccountName;
          ObjectMeta_GenerateName := "";
          ObjectMeta_Namespace := namespaceName |} |}.

(** Lines 89-109 *)
Definition buildClusterRoleBinding (clusterRoleBindingName namespaceName : string)
    : ClusterRoleBinding :=
  {| ClusterRoleBinding_TypeMeta :=
       {| TypeMeta_Kind := "ClusterRoleBinding";
          TypeMeta_APIVersion := "rbac.authorization.k8s.io/v1" |};
     ClusterRoleBinding_ObjectMeta :=
       {| ObjectMeta_Name := clusterRoleBindingName;
          ObjectMeta_GenerateName := "";
          ObjectMeta_Namespace := "" |};
     ClusterRoleBinding_RoleRef :=
       {| RoleRef_APIGroup := "rbac.authorization.k8s.io";
          RoleRef_Kind := "ClusterRole";
          RoleRef_Name := "cluster-admin" |};
     ClusterRoleBinding_Subjects :=
       [{| Subject_Kind := "ServiceAccount";
           Subject_Name := serviceAccountName;
           Subject_Namespace := namespaceName |}] |}.

(** Lines 111-150 *)
Definition buildPod (podName namespaceName image nodeName : string) : Pod :=
  {| Pod_TypeMeta := {| TypeMeta_Kind := "Pod"; TypeMeta_APIVersion := "v1" |};
     Pod_ObjectMeta :=
       {| ObjectMeta_Name := podName;
          ObjectMeta_GenerateName := "";
          ObjectMeta_Namespace := namespaceName |};
     Pod_Spec :=
       {| PodSpec_ServiceAccountName := serviceAccountName;
          PodSpec_NodeName := nodeName;
          PodSpec_PriorityClassName := "";
          PodSpec_RestartPolicy := "Never";
          PodSpec_Volumes :=
            [{| Volume_Name := "must-gather-output"; Volume_EmptyDir := true |}];
          PodSpec_Containers :=
            [{| Container_Name := "must-gather";
                Container_Image := image;
                Container_ImagePullPolicy := "";
                Container_Command :=
                  ["/bin/sh"; "-c"; "/usr/bin/gather && sleep infinity"];
                Container_Env := [];
                Container_VolumeMounts :=
                  [{| VolumeMount_Name := "must-gather-output";
                      VolumeMount_MountPath := "/must-gather" |}] |}];
          PodSpec_HostNetwork := false;
          PodSpec_NodeSelector := ∅;
          PodSpec_Tolerations := [] |} |}.

(** The handler literal, lines 44-188. The [image_stream] test comes
    right after the four arguments are read, before anything is built. *)
Definition handler (params : ToolHandlerParams) : Outcome string :=
  let args := GetArguments params in
  let image := stringOrZero args "image" in
  let destDir := stringOrZero args "dest_dir" in
  let nodeName := stringOrZero args "node_name" in
  let imageStream := stringOrZero args "image_stream" in
  if negb (imageStream =? "") then
    Fatal "the --image-stream parameter is not yet supported. Please use the --image parameter"
  else
    let image :=
      if image =? "" then "registry.redhat.io/openshift4/ose-must-gather:latest"
      else image in
    let destDir := if destDir =? "" then "./must-gather-results" else destDir in
    let suffix := rand_String 5 in
    let namespaceName := namespaceNameOf suffix in
    let podName := podNameOf suffix in
    let clusterRoleBindingName := bindingNameOf suffix in
    namespaceYaml ← marshalOr "failed to marshal namespace to yaml"
                      (ONamespace (Some (buildNamespace namespaceName)));
    serviceAccountYaml ← marshalOr "failed to marshal service account to yaml"
                           (OServiceAccount (buildServiceAccount namespaceName));
    clusterRoleBindingYaml ←
      marshalOr "failed to marshal cluster role binding to yaml"
        (OClusterRoleBinding
           (buildClusterRoleBinding clusterRoleBindingName namespaceName));
    podYaml ← marshalOr "failed to marshal pod to yaml"
                (OPod (buildPod podName namespaceName image nodeName));
    Ret ("# Save the following content to a file (e.g., must-gather-plan.yaml) and apply it with 'kubectl apply -f must-gather-plan.yaml'" +:+ nl
         +:+ "# Monitor the pod's logs to see when the must-gather process is complete:" +:+ nl
         +:+ ("# kubectl logs -f -n " +:+ namespaceName +:+ " " +:+ podName +:+ nl)
         +:+ "# Once the logs indicate completion, copy the results with:" +:+ nl
         +:+ ("# kubectl cp -n " +:+ namespaceName +:+ " " +:+ podName
                +:+ ":/must-gather " +:+ destDir +:+ nl)
         +:+ "# Finally, clean up the resources with:" +:+ nl
         +:+ ("# kubectl delete ns " +:+ namespaceName +:+ nl)
         +:+ ("# kubectl delete clusterrolebinding " +:+ clusterRoleBindingName +:+ nl)
         +:+ ("---" +:+ nl) +:+ namespaceYaml
         +:+ ("---" +:+ nl) +:+ serviceAccountYaml
         +:+ ("---" +:+ nl) +:+ clusterRoleBindingYaml
         +:+ ("---" +:+ nl) +:+ podYaml).

End Handler.

End MustGatherPlan.

(** ** Concrete collaborators, to run the handlers on examples *)

Module Sample.
Import GoStrings.

Definition isDigit (c : ascii) : bool :=
  (48 <=? nat_of_ascii c)%nat && (nat_of_ascii c <=? 57)%nat.

(** The nanoseconds of the units [time.ParseDuration] knows (the two
    spellings of the microsecond with a Greek letter left out). *)
Definition unitOf (u : string) : option Z :=
  if u =? "ns" then Some 1%Z
  else if u =? "us" then Some 1000%Z
  else if u =? "ms" then Some 1000000%Z
  else if u =? "s" then Some 1000000000%Z
  else if u =? "m" then Some 60000000000%Z
  else if u =? "h" then Some 3600000000000%Z
  else None.

(** The leading run of bytes that satisfy [p], and the rest. *)
Fixpoint span (p : ascii → bool) (s : string) : string * string :=
  match s with
  | EmptyString => (EmptyString, EmptyString)
  | String c rest =>
      if p c then let '(run, rest') := span p rest in (String c run, rest')
      else (EmptyString, s)
  end.

Fixpoint decimal (acc : Z) (digits : string) : Z :=
  match digits with
  | EmptyString => acc
  | String c rest => decimal (10 * acc + Z.of_nat (nat_of_ascii c - 48)) rest
  end.

(** One or more [<digits><unit>] groups; [rounds] bounds the groups. *)
Fixpoint groups (rounds : nat) (s : string) (total : Z) : GoResult Z :=
  match rounds with
  | O => Err "time: invalid duration"
  | S rounds' =>
      let '(digits, rest) := span isDigit s in
      let '(unit, rest') := span (fun c => negb (isDigit c)) rest in
      match digits, unitOf unit with
      | String _ _, Some ns =>
          let total := (total + decimal 0 digits * ns)%Z in
          if rest' =? "" then Ok total else groups rounds' rest' total
      | _, _ => Err "time: invalid duration"
      end
  end.

(** A duration reader for the whole-number forms ([30s], [2h10m30s], [0]);
    it has neither signs, fractions nor the overflow checks of
    [time.ParseDuration]. *)
Definition ParseDuration (s : string) : GoResult Z :=
  if s =? "0" then Ok 0%Z else groups (len s) s 0%Z.

(** A serializer that writes the type and object metadata of a descriptor,
    one [key: value] line per non-empty field, and for a pod one
    [image:] line per container. *)
Definition line (indent key value : string) : string :=
  if value =? "" then "" else indent +:+ key +:+ ": " +:+ value +:+ nl.

Definition metaLines (t : TypeMeta) (m : ObjectMeta) : string :=
  String.concat "" (map (fun kv => line "" (fst kv) (snd kv)) (typeMetaFields t))
  +:+ "metadata:" +:+ nl
  +:+ line "  " "generateName" (ObjectMeta_GenerateName m)
  +:+ line "  " "name" (ObjectMeta_Name m)
  +:+ line "  " "namespace" (ObjectMeta_Namespace m).

Definition Marshal (obj : Object) : GoResult string :=
  match obj with
  | ONamespace None => Ok ("null" +:+ nl)
  | ONamespace (Some ns) =>
      Ok (metaLines (Namespace_TypeMeta ns) (Namespace_ObjectMeta ns))
  | OServiceAccount sa =>
      Ok (metaLines (ServiceAccount_TypeMeta sa) (ServiceAccount_ObjectMeta sa))
  | OClusterRoleBinding crb =>
      Ok (metaLines (ClusterRoleBinding_TypeMeta crb) (ClusterRoleBinding_ObjectMeta crb)
          +:+ String.concat ""
                (map (fun s => line "" "subjectNamespace" (Subject_Namespace s))
                     (ClusterRoleBinding_Subjects crb)))
  | OPod p =>
      Ok (metaLines (Pod_TypeMeta p) (Pod_ObjectMeta p)
          +:+ String.concat ""
                (map (fun c => line "" "image" (Container_Image c))
                     (PodSpec_Containers (Pod_Spec p))))
  end.

Definition randByte (call i : nat) : nat := 7 * i + call.
Definition rand_String (n : nat) : string := take n "x7k2qzzzzz".

(** [plan_mustgather] and [must_gather_plan] with these collaborators. *)
Definition mustGatherPlan : ToolHandlerParams → Outcome string :=
  Mustgather.mustGatherPlan ParseDuration Marshal randByte.
Definition resolveArguments : gmap string Value → Outcome Mustgather.PlanConfig :=
  Mustgather.resolveArguments ParseDuration randByte.
Definition handler : ToolHandlerParams → Outcome string :=
  MustGatherPlan.handler Marshal rand_String.

(** The configuration of a call that names only its images. *)
Definition config (images : list string) : Mustgather.PlanConfig :=
  {| Mustgather.nodeName := ""; Mustgather.nodeSelector := ∅;
     Mustgather.hostNetwork := false;
     Mustgather.sourceDir := Mustgather.defaultGatherSourceDir;
     Mustgather.namespace := "openshift-must-gather-ahov4d";
     Mustgather.keepNamespace := false;
     Mustgather.gatherCmd := Mustgather.defaultGatherCmd;
     Mustgather.allImages := false; Mustgather.images := images;
     Mustgather.timeout := ""; Mustgather.since := "" |}.

(** Runes written out in UTF-8: U+00A0 (no-break space), U+2003 (em
    space), U+3000 (ideographic space), which are white space, and U+200B
    (zero width space), which is not. *)
Definition utf8 (bytes : list nat) : string :=
  string_of_list_ascii (map ascii_of_nat bytes).
Definition nbsp : string := utf8 [194; 160].
Definition emSpace : string := utf8 [226; 128; 131].
Definition ideographicSpace : string := utf8 [227; 128; 128].
Definition zeroWidthSpace : string := utf8 [226; 128; 139].

(** An invocation with the given arguments on a cluster whose namespaces
    are [default] and [debug]. *)
Definition invoke (args : list (string * Value)) : ToolHandlerParams :=
  {| GetArguments := list_to_map args;
     NamespacesList := Ok [NsNamed "default"; NsNamed "debug"] |}.

End Sample.

(** ** Notions the properties are stated with *)

(** The same invocation with the argument [key] left out. *)
Definition withoutArgument (key : string) (params : ToolHandlerParams)
    : ToolHandlerParams :=
  {| GetArguments := delete key (GetArguments params);
     NamespacesList := NamespacesList params |}.

(** The document separator line the handlers write. *)
Definition separator : string := "---" +:+ nl.

(** The pieces written to a [strings.Builder], joined. *)
Definition written (pieces : list string) : string := String.concat "" pieces.

(** The byte [c] occurs in [s]. *)
Fixpoint hasByte (c : ascii) (s : string) : bool :=
  match s with
  | EmptyString => false
  | String d rest => Ascii.eqb d c || hasByte c rest
  end.

(** Every byte of [s] satisfies [p]. *)
Fixpoint allBytes (p : ascii → bool) (s : string) : bool :=
  match s with
  | EmptyString => true
  | String d rest => p d && allBytes p rest
  end.

(** An ASCII byte that is neither white space nor a comma. *)
Definition isPlain (c : ascii) : bool :=
  GoStrings.isAscii c && negb (GoStrings.isSpace c) && negb (Ascii.eqb c ",").

(** A label key or value written in ASCII without white space and commas;
    a key has no [=] either. *)
Definition plainValue (v : string) : bool := allBytes isPlain v.
Definition plainKey (k : string) : bool := plainValue k && negb (hasByte "=" k).

(** A node selector as a caller writes it: [k=v] pairs with commas between
    them. *)
Definition renderSelector (pairs : list (string * string)) : string :=
  GoStrings.Join (map (fun pair => fst pair +:+ "=" +:+ snd pair) pairs) ",".

(** The body of the loop of [parseNodeSelector], lines 385-388, and the loop
    over the pieces of a selector. *)
Definition selectorStep (result : gmap string string) (pair : string)
    : gmap string string :=
  match GoStrings.SplitN2 (GoStrings.TrimSpace pair) "=" with
  | [k; v] => <[GoStrings.TrimSpace k := GoStrings.TrimSpace v]> result
  | _ => result
  end.
Definition selectorPairs (selector : string) : gmap string string :=
  fold_left selectorStep (GoStrings.Split selector ",") ∅.

(** A string that [strings.TrimSpace] leaves as it is. *)
Definition trimmed (s : string) : Prop := GoStrings.TrimSpace s = s.

(** The letters and digits of [rand.Text] once lower-cased. *)
Definition isBase32Lower (c : ascii) : bool :=
  hasByte c "abcdefghijklmnopqrstuvwxyz234567".

(** The volume names the containers mount, and the names the pod declares. *)
Definition mountedVolumes (p : Pod) : list string :=
  flat_map (fun c => map VolumeMount_Name (Container_VolumeMounts c))
           (PodSpec_Containers (Pod_Spec p)).
Definition declaredVolumes (p : Pod) : list string :=
  map Volume_Name (PodSpec_Volumes (Pod_Spec p)).

(** A handler went on to its end or returned an error, without panicking. *)
Definition noPanic {A} (o : Outcome A) : Prop :=
  match o with Panic _ => False | _ => True end.

(** The descriptors [mustGatherPlan] serializes for a plan, in order. *)
Definition documents (plan : Mustgather.ResourcePlan) : list Object :=
  ((if Mustgather.namespaceExists plan then []
    else [ONamespace (Mustgather.namespaceObj plan)])
   ++ [OServiceAccount (Mustgather.serviceAccount plan);
       OClusterRoleBinding (Mustgather.clusterRoleBinding plan);
       OPod (Mustgather.pod plan)])%list.

(** A configuration with another [allImages] flag. *)
Definition withAllImages (flag : bool) (cfg : Mustgather.PlanConfig)
    : Mustgather.PlanConfig :=
  {| Mustgather.nodeName := Mustgather.nodeName cfg;
     Mustgather.nodeSelector := Mustgather.nodeSelector cfg;
     Mustgather.hostNetwork := Mustgather.hostNetwork cfg;
     Mustgather.sourceDir := Mustgather.sourceDir cfg;
     Mustgather.namespace := Mustgather.namespace cfg;
     Mustgather.keepNamespace := Mustgather.keepNamespace cfg;
     Mustgather.gatherCmd := Mustgather.gatherCmd cfg;
     Mustgather.allImages := flag;
     Mustgather.images := Mustgather.images cfg;
     Mustgather.timeout := Mustgather.timeout cfg;
     Mustgather.since := Mustgather.since cfg |}.

(** An item of the namespace list that converts. *)
Definition isNamed (item : NsItem) : bool :=
  match item with NsNamed _ => true | NsUnconvertible _ => false end.

(** An item that converts to a namespace with another name. *)
Definition isOther (namespace : string) (item : NsItem) : bool :=
  match item with
  | NsNamed name => negb (name =? namespace)
  | NsUnconvertible _ => false
  end.

(** * Properties of the handlers *)

Import GoStrings Mustgather.

(** ** Binding outcomes *)

Section OutcomeFacts.
Context {A B : Type}.

Lemma bind_Ret (a : A) (f : A → Outcome B) : Ret a ≫= f = f a.
Proof. reflexivity. Qed.

Lemma bind_Ret_inv (m : Outcome A) (f : A → Outcome B) (b : B) :
  m ≫= f = Ret b → ∃ a, m = Ret a ∧ f a = Ret b.
Proof. destruct m as [a| | |]; simpl; intros H; try discriminate. by exists a. Qed.

Lemma bind_ext (m : Outcome A) (f g : A → Outcome B) :
  (∀ a, f a = g a) → m ≫= f = m ≫= g.
Proof. intros Hfg. destruct m; simpl; [apply Hfg | done..]. Qed.
End OutcomeFacts.

(** ** Reading an argument *)

Lemma argOr_absent {A} args key (read : Value → Outcome A) dflt :
  present args key = None → argOr args key read dflt = Ret dflt.
Proof. unfold argOr. by intros ->. Qed.

Lemma argOr_present {A} args key (read : Value → Outcome A) dflt v :
  present args key = Some v → argOr args key read dflt = read v.
Proof. unfold argOr. by intros ->. Qed.

(** An argument of the asserted type is read without a panic. *)
Lemma argOr_asserted {A} args key T (read : Value → Outcome A) dflt :
  (∀ v, hasGoType T v = true → ∃ a, read v = Ret a) →
  argAsserted args key T = true →
  ∃ a, argOr args key read dflt = Ret a.
Proof.
  unfold argAsserted, argOr. intros Hread.
  destruct (present args key) as [v|]; eauto.
Qed.

Lemma asserted_arg (checked : list (string * GoType)) args key T :
  forallb (fun assertion => argAsserted args (fst assertion) (snd assertion)) checked = true →
  (key, T) ∈ checked → argAsserted args key T = true.
Proof.
  rewrite forallb_forall. intros Hall Hin.
  apply (Hall (key, T)). by apply list_elem_of_In.
Qed.

(** ** The gather containers *)

(** The loop of lines 198-203 by the number of images: the slice has room
    for one container only. *)
Lemma buildGatherContainers_cases (cfg : PlanConfig) :
  buildGatherContainers cfg =
    match images cfg with
    | [] => Ret [gatherContainerTemplate cfg]
    | [image] => Ret [setImage (gatherContainerTemplate cfg) image]
    | _ :: _ :: _ => Panic (IndexOutOfRange 1 1)
    end.
Proof.
  unfold buildGatherContainers.
  destruct (images cfg) as [|first [|second rest]]; reflexivity.
Qed.

Lemma buildGatherContainers_Ret (cfg : PlanConfig) cs :
  buildGatherContainers cfg = Ret cs →
  (images cfg = [] ∧ cs = [gatherContainerTemplate cfg]) ∨
  (∃ image, images cfg = [image] ∧ cs = [setImage (gatherContainerTemplate cfg) image]).
Proof.
  rewrite buildGatherContainers_cases.
  destruct (images cfg) as [|first [|second rest]]; intros H; simplify_eq; eauto.
Qed.


(** C1. The planner is meant to build one gather container per supplied
    image, in order, followed by the wait container. The slice it fills has
    length 1, so with two or more images the second assignment
    [gatherContainers[1] = ...] is out of range: the pod is never built and
    the call panics. *)
Theorem two_or_more_images_panic (cfg : PlanConfig) :
  (2 ≤ length (images cfg))%nat → buildPod cfg = Panic (IndexOutOfRange 1 1).
Proof.
  intros Hlen. unfold buildPod. rewrite buildGatherContainers_cases.
  destruct (images cfg) as [|first [|second rest]]; simpl in Hlen; [lia | lia | done].
Qed.

Lemma two_or_more_images_panic_witness :
  buildPod (Sample.config ["quay.io/a"; "quay.io/b"]) = Panic (IndexOutOfRange 1 1).
Proof. apply two_or_more_images_panic. simpl. lia. Defined.

(** C2. Building the plan from a resolved configuration is meant to have no
    failure mode of its own. It has one: a configuration with two or more
    images makes [buildPlan] panic, whatever the namespace listing is. *)
Theorem buildPlan_panics_on_two_images (cfg : PlanConfig)
    (listing : GoResult (list NsItem)) :
  (2 ≤ length (images cfg))%nat → buildPlan cfg listing = Panic (IndexOutOfRange 1 1).
Proof.
  intros Hlen. unfold buildPlan, buildPod. rewrite buildGatherContainers_cases.
  destruct (images cfg) as [|first [|second rest]]; simpl in Hlen; [lia | lia | done].
Qed.

Lemma buildPlan_panics_on_two_images_witness :
  buildPlan (Sample.config ["quay.io/a"; "quay.io/b"; "quay.io/c"]) (Ok [])
  = Panic (IndexOutOfRange 1 1).
Proof. apply buildPlan_panics_on_two_images. simpl. lia. Defined.

(** With at most one image the plan is built whenever the listing can be
    read: the panic of C2 is the only fault of [buildPlan]. *)
Lemma buildPlan_total_up_to_one_image (cfg : PlanConfig) (items : list NsItem) b :
  (length (images cfg) ≤ 1)%nat →
  checkNamespaces (namespace cfg) items false = Ok b →
  ∃ plan, buildPlan cfg (Ok items) = Ret plan.
Proof.
  intros Hlen Hcheck. unfold buildPlan, buildPod.
  rewrite buildGatherContainers_cases, Hcheck.
  destruct (images cfg) as [|first [|second rest]]; simpl in *; eauto; lia.
Qed.

Section Resolved.
Variable time_ParseDuration : string → GoResult Z.
Variable randByte : nat → nat → nat.

Local Abbreviation resolve := (resolveArguments time_ParseDuration randByte).

(** What a successful resolution has read, argument by argument. *)
Lemma resolveArguments_Ret args cfg :
  resolve args = Ret cfg →
  argOr args "node_name" assertString "" = Ret (nodeName cfg) ∧
  argOr args "host_network" assertBool false = Ret (hostNetwork cfg) ∧
  argOr args "source_dir" (fun v => GoPath.Clean <$> assertString v)
    defaultGatherSourceDir = Ret (sourceDir cfg) ∧
  argOr args "namespace" assertString
    ("openshift-must-gather-" +:+ generateRandomString randByte 6)
    = Ret (namespace cfg) ∧
  argOr args "keep_namespace" assertBool false = Ret (keepNamespace cfg) ∧
  argOr args "images" assertStrings [] = Ret (images cfg) ∧
  argOr args "since" (readSince time_ParseDuration) "" = Ret (since cfg) ∧
  ∃ cmd, argOr args "gather_command" assertString defaultGatherCmd = Ret cmd ∧
         argOr args "timeout" (readTimeout time_ParseDuration cmd) ("", cmd)
         = Ret (timeout cfg, gatherCmd cfg).
Proof.
  unfold resolveArguments. intros H.
  repeat (apply bind_Ret_inv in H as (? & ? & H)).
  simplify_eq. simpl. repeat split; try done.
  eexists. split; [done |]. by rewrite <- surjective_pairing.
Qed.



End Resolved.



(** ** Appending strings *)

Lemma append_cons (c : ascii) (a b : string) : String c a +:+ b = String c (a +:+ b).
Proof. reflexivity. Qed.

Lemma append_assoc (a b c : string) : (a +:+ b) +:+ c = a +:+ b +:+ c.
Proof. induction a as [|x a IH]; [done |]. by rewrite !append_cons, IH. Qed.

Lemma HasPrefix_append (a b sub : string) :
  HasPrefix a sub = true → HasPrefix (a +:+ b) sub = true.
Proof.
  revert a. induction sub as [|x sub IH]; intros a.
  - intros _. by destruct (a +:+ b).
  - destruct a as [|y a]; simpl; [done |].
    intros H. apply andb_true_iff in H as [Hxy H]. rewrite ?append_cons. simpl.
    rewrite Hxy. by apply IH.
Qed.

Lemma Contains_append_l (a b sub : string) :
  Contains a sub = true → Contains (a +:+ b) sub = true.
Proof.
  induction a as [|x a IH]; simpl.
  - rewrite orb_false_r. destruct sub; [by destruct b | done].
  - intros H. rewrite ?append_cons. simpl.
    apply orb_true_iff in H as [H | H]; apply orb_true_iff.
    + left. by apply (HasPrefix_append (String x a)).
    + right. by apply IH.
Qed.

Lemma Contains_append_r (a b sub : string) :
  Contains b sub = true → Contains (a +:+ b) sub = true.
Proof.
  intros H. induction a as [|x a IH]; [done |].
  rewrite ?append_cons. simpl. apply orb_true_iff. by right.
Qed.

(** ** Checking the namespace list *)

Lemma checkNamespaces_found namespace items :
  checkNamespaces namespace items true = Ok true.
Proof. induction items as [|item items IH]; simpl; done. Qed.


(** What a built plan consists of. *)
Lemma buildPlan_Ret cfg listing plan :
  buildPlan cfg listing = Ret plan →
  ∃ p items found,
    buildPod cfg = Ret p ∧ listing = Ok items ∧
    checkNamespaces (namespace cfg) items false = Ok found ∧
    plan = {| pod := p;
              namespaceExists := found;
              namespaceObj := buildNamespace cfg found;
              serviceAccount := buildServiceAccount cfg;
              clusterRoleBindingName := bindingName cfg;
              clusterRoleBinding := buildClusterRoleBinding cfg |}.
Proof.
  unfold buildPlan. intros H. apply bind_Ret_inv in H as (p & Hp & H).
  destruct listing as [items | err]; [| done].
  destruct (checkNamespaces (namespace cfg) items false) as [found | err] eqn:Hcheck;
    [| done].
  simplify_eq. by exists p, items, found.
Qed.

Section Rendered.
Variable yaml_Marshal : Object → GoResult string.

Lemma marshalOr_Ret what obj bytes :
  marshalOr yaml_Marshal what obj = Ret bytes → yaml_Marshal obj = Ok bytes.
Proof. unfold marshalOr. destruct (yaml_Marshal obj); intros H; by simplify_eq. Qed.

(** The text of a rendered plan, piece by piece, in the order of writing. *)
Lemma renderPlan_Ret cfg plan text :
  renderPlan yaml_Marshal cfg plan = Ret text →
  ∃ namespacePart serviceAccountYaml clusterRoleBindingYaml podYaml,
    (if namespaceExists plan then namespacePart = []
     else ∃ namespaceYaml,
            yaml_Marshal (ONamespace (namespaceObj plan)) = Ok namespaceYaml ∧
            namespacePart = [separator; namespaceYaml]) ∧
    yaml_Marshal (OServiceAccount (serviceAccount plan)) = Ok serviceAccountYaml ∧
    yaml_Marshal (OClusterRoleBinding (clusterRoleBinding plan))
      = Ok clusterRoleBindingYaml ∧
    yaml_Marshal (OPod (pod plan)) = Ok podYaml ∧
    text = written ([planComments cfg plan; "```yaml"] ++ namespacePart
                    ++ [separator; serviceAccountYaml;
                        separator; clusterRoleBindingYaml;
                        podYaml; "```"])%list.
Proof.
  unfold renderPlan. intros H.
  apply bind_Ret_inv in H as (result & Hns & H).
  apply bind_Ret_inv in H as (saYaml & Hsa%marshalOr_Ret & H).
  apply bind_Ret_inv in H as (crbYaml & Hcrb%marshalOr_Ret & H).
  apply bind_Ret_inv in H as (podYaml & Hpod%marshalOr_Ret & H).
  injection H as <-.
  destruct (namespaceExists plan); simpl in Hns.
  - injection Hns as <-. exists [], saYaml, crbYaml, podYaml.
    repeat split; try done.
    unfold written, separator. cbn [app String.concat].
    by rewrite !append_assoc.
  - apply bind_Ret_inv in Hns as (nsYaml & Hnsy%marshalOr_Ret & Hns).
    injection Hns as <-. exists [separator; nsYaml], saYaml, crbYaml, podYaml.
    repeat split; try done; [by exists nsYaml |].
    unfold written, separator. cbn [app String.concat].
    by rewrite !append_assoc.
Qed.

End Rendered.

(** C3. The text of a successful call is the comment block, the opening
    fence, then the documents in the order Namespace (when it does not
    exist yet), ServiceAccount, ClusterRoleBinding, Pod, and the closing
    fence. A separator is written before the first three documents only:
    the Pod document follows the ClusterRoleBinding document directly,
    where a separator between every two documents is expected. *)
Theorem plan_text_layout
    (time_ParseDuration : string → GoResult Z)
    (yaml_Marshal : Object → GoResult string)
    (randByte : nat → nat → nat)
    (params : ToolHandlerParams) (text : string) :
  mustGatherPlan time_ParseDuration yaml_Marshal randByte params = Ret text →
  ∃ cfg plan namespacePart serviceAccountYaml clusterRoleBindingYaml podYaml,
    resolveArguments time_ParseDuration randByte (GetArguments params) = Ret cfg ∧
    buildPlan cfg (NamespacesList params) = Ret plan ∧
    (if namespaceExists plan then namespacePart = []
     else ∃ namespaceYaml,
            yaml_Marshal (ONamespace (namespaceObj plan)) = Ok namespaceYaml ∧
            namespacePart = [separator; namespaceYaml]) ∧
    yaml_Marshal (OServiceAccount (serviceAccount plan)) = Ok serviceAccountYaml ∧
    yaml_Marshal (OClusterRoleBinding (clusterRoleBinding plan))
      = Ok clusterRoleBindingYaml ∧
    yaml_Marshal (OPod (pod plan)) = Ok podYaml ∧
    text = written ([planComments cfg plan; "```yaml"] ++ namespacePart
                    ++ [separator; serviceAccountYaml;
                        separator; clusterRoleBindingYaml;
                        podYaml; "```"])%list.
Proof.
  unfold mustGatherPlan. intros H.
  apply bind_Ret_inv in H as (cfg & Hcfg & H).
  apply bind_Ret_inv in H as (plan & Hplan & H).
  apply renderPlan_Ret in H as (nsPart & saYaml & crbYaml & podYaml & H).
  by exists cfg, plan, nsPart, saYaml, crbYaml, podYaml.
Qed.

Lemma plan_text_layout_witness :
  ∃ text cfg plan serviceAccountYaml clusterRoleBindingYaml podYaml,
    Sample.mustGatherPlan (Sample.invoke [("namespace", VString "debug")]) = Ret text ∧
    Sample.resolveArguments (list_to_map [("namespace", VString "debug")]) = Ret cfg ∧
    buildPlan cfg (Ok [NsNamed "default"; NsNamed "debug"]) = Ret plan ∧
    Sample.Marshal (OServiceAccount (serviceAccount plan)) = Ok serviceAccountYaml ∧
    Sample.Marshal (OClusterRoleBinding (clusterRoleBinding plan))
      = Ok clusterRoleBindingYaml ∧
    Sample.Marshal (OPod (pod plan)) = Ok podYaml ∧
    text = written [planComments cfg plan; "```yaml";
                    separator; serviceAccountYaml;
                    separator; clusterRoleBindingYaml;
                    podYaml; "```"].
Proof.
  destruct (plan_text_layout Sample.ParseDuration Sample.Marshal Sample.randByte
              (Sample.invoke [("namespace", VString "debug")])
              (match Sample.mustGatherPlan (Sample.invoke [("namespace", VString "debug")])
               with Ret text => text | _ => "" end))
    as (cfg & plan & nsPart & saYaml & crbYaml & podYaml
        & Hcfg & Hplan & Hns & Hsa & Hcrb & Hpod & Htext).
  { vm_compute. reflexivity. }
  eexists _, cfg, plan, saYaml, crbYaml, podYaml.
  split; [vm_compute; reflexivity |].
  split; [exact Hcfg |]. split; [exact Hplan |].
  split; [exact Hsa |]. split; [exact Hcrb |]. split; [exact Hpod |].
  assert (namespaceExists plan = true) as Hexists.
  { vm_compute in Hcfg. injection Hcfg as <-.
    vm_compute in Hplan. injection Hplan as <-. reflexivity. }
  rewrite Hexists in Hns. rewrite Hns in Htext. exact Htext.
Defined.





(** ** Arguments that pass their type assertions *)

Ltac in_assertions :=
  cbn; repeat first [apply list_elem_of_here | apply list_elem_of_further].

Ltac typed_read := intros [] ?; simplify_eq/=; eauto.

(** Reads the next argument of [resolveArguments] in the goal, given that
    it passes its assertion. *)
Ltac read_next Hconf key T :=
  let a := fresh "a" in
  let Ha := fresh "Ha" in
  match goal with
  | |- context [argOr ?args key ?read ?dflt] =>
      destruct (argOr_asserted args key T read dflt) as [a Ha];
      [ typed_read
      | apply (asserted_arg _ _ _ _ Hconf); in_assertions
      | rewrite Ha, bind_Ret; cbv beta ]
  end.

Section Durations.
Variable time_ParseDuration : string → GoResult Z.
Variable yaml_Marshal : Object → GoResult string.
Variable randByte : nat → nat → nat.

Local Abbreviation resolve := (resolveArguments time_ParseDuration randByte).
Local Abbreviation run := (mustGatherPlan time_ParseDuration yaml_Marshal randByte).




(** An assertion that fails before [key] is read ends the call there. *)
Lemma resolve_images_array_panics args items :
  assertedBefore "images" args = true →
  present args "images" = Some (VArray items) →
  resolve args = Panic InterfaceConversion.
Proof.
  intros Hconf Himages. unfold resolveArguments.
  read_next Hconf "node_name" GoString.
  read_next Hconf "node_selector" GoString.
  read_next Hconf "host_network" GoBool.
  read_next Hconf "source_dir" GoString.
  read_next Hconf "namespace" GoString.
  read_next Hconf "keep_namespace" GoBool.
  read_next Hconf "gather_command" GoString.
  read_next Hconf "all_component_images" GoBool.
  by rewrite (argOr_present _ _ _ _ _ Himages).
Qed.


End Durations.



(** ** The [image_stream] argument *)

Lemma present_delete_ne args key other :
  key ≠ other → present (delete key args) other = present args other.
Proof. intros Hne. unfold present. by rewrite lookup_delete_ne. Qed.

Lemma argOr_delete_ne {A} args key other (read : Value → Outcome A) dflt :
  key ≠ other → argOr (delete key args) other read dflt = argOr args other read dflt.
Proof. intros Hne. unfold argOr. by rewrite present_delete_ne. Qed.

(** [mustGatherPlan] reads eleven arguments, none of them [image_stream]. *)
Lemma resolveArguments_ignores_image_stream
    (time_ParseDuration : string → GoResult Z) (randByte : nat → nat → nat) args :
  resolveArguments time_ParseDuration randByte (delete "image_stream" args)
  = resolveArguments time_ParseDuration randByte args.
Proof.
  unfold resolveArguments.
  rewrite !(argOr_delete_ne args "image_stream") by done.
  repeat first
    [ reflexivity
    | rewrite (argOr_delete_ne args "image_stream") by done
    | apply bind_ext; intros ? ].
Qed.

(** The claim of C4 fails on [plan_mustgather]: a call with
    [image_stream = "foo"] returns the very plan text of the call without
    it, not an error. *)
Lemma image_stream_accepted_by_plan_mustgather :
  Sample.mustGatherPlan (Sample.invoke [("image_stream", VString "foo")])
  = Sample.mustGatherPlan (Sample.invoke []) ∧
  ∃ text,
    Sample.mustGatherPlan (Sample.invoke [("image_stream", VString "foo")]) = Ret text.
Proof. split; [vm_compute; reflexivity |]. eexists. vm_compute. reflexivity. Qed.

(** C4, amended. The handler of [must_gather_plan.go] answers a non-empty
    string [image_stream] with the error that points to [--image], whatever
    the other arguments and collaborators are; the test comes before any
    descriptor is built or serialized. The handler of [mustgather.go] does
    not read [image_stream]: its outcome is that of the same call without
    the argument. *)
Theorem image_stream_rejected_by_must_gather_plan
    (time_ParseDuration : string → GoResult Z)
    (yaml_Marshal : Object → GoResult string)
    (randByte : nat → nat → nat) (rand_String : nat → string)
    (params : ToolHandlerParams) (imageStream : string) :
  GetArguments params !! "image_stream" = Some (VString imageStream) →
  imageStream ≠ "" →
  MustGatherPlan.handler yaml_Marshal rand_String params
    = Fatal "the --image-stream parameter is not yet supported. Please use the --image parameter" ∧
  mustGatherPlan time_ParseDuration yaml_Marshal randByte params
    = mustGatherPlan time_ParseDuration yaml_Marshal randByte
        (withoutArgument "image_stream" params).
Proof.
  intros Hstream Hnonempty. split.
  - unfold MustGatherPlan.handler. cbv zeta. unfold stringOrZero. rewrite Hstream.
    apply String.eqb_neq in Hnonempty. by rewrite Hnonempty.
  - unfold mustGatherPlan, withoutArgument. simpl.
    by rewrite resolveArguments_ignores_image_stream.
Qed.

Lemma image_stream_rejected_by_must_gather_plan_witness :
  Sample.handler (Sample.invoke [("image_stream", VString "foo");
                                 ("image", VString "quay.io/a")])
  = Fatal "the --image-stream parameter is not yet supported. Please use the --image parameter".
Proof.
  apply (image_stream_rejected_by_must_gather_plan Sample.ParseDuration Sample.Marshal
           Sample.randByte Sample.rand_String
           (Sample.invoke [("image_stream", VString "foo");
                           ("image", VString "quay.io/a")]) "foo").
  - vm_compute. reflexivity.
  - discriminate.
Defined.





(** ** The generated namespace suffix *)

Lemma len_append (a b : string) : len (a +:+ b) = (len a + len b)%nat.
Proof.
  unfold len. induction a as [|c a IH]; [done |].
  rewrite ?append_cons. simpl. by rewrite IH.
Qed.

Lemma len_ToLower (s : string) : len (ToLower s) = len s.
Proof. unfold len. induction s as [|c s IH]; simpl; [done | by rewrite IH]. Qed.

Lemma len_take (n : nat) (s : string) : (n ≤ len s)%nat → len (take n s) = n.
Proof.
  unfold len, take. revert n. induction s as [|c s IH]; intros [|n]; simpl; try done.
  - lia.
  - intros Hn. rewrite IH; [done | lia].
Qed.

Lemma len_string_of_list_ascii (l : list ascii) :
  len (string_of_list_ascii l) = length l.
Proof. unfold len. induction l as [|c l IH]; simpl; [done | by rewrite IH]. Qed.

Section RandomSuffix.
Variable randByte : nat → nat → nat.

(** [rand.Text] always hands out 26 characters. *)
Lemma len_rand_Text (call : nat) : len (rand_Text randByte call) = 26.
Proof.
  unfold rand_Text. rewrite len_string_of_list_ascii.
  by rewrite length_map, length_seq.
Qed.

(** The recursion of [generateRandomString] ends with a string of the
    length asked for: every round supplies 26 characters more. *)
Lemma generateRandomStringFrom_length (rounds call length : nat) :
  (length ≤ 26 * S rounds)%nat →
  len (generateRandomStringFrom randByte rounds call length) = length.
Proof.
  revert call length. induction rounds as [|rounds IH]; intros call length Hlen;
    cbn [generateRandomStringFrom]; rewrite ?len_ToLower, ?len_rand_Text.
  - apply len_take. rewrite len_ToLower, len_rand_Text. lia.
  - destruct (26 <? length)%nat eqn:Hshort.
    + apply Nat.ltb_lt in Hshort. apply len_take.
      rewrite len_append, len_ToLower, len_rand_Text, IH; lia.
    + apply Nat.ltb_ge in Hshort. apply len_take.
      rewrite len_ToLower, len_rand_Text. lia.
Qed.

Lemma generateRandomString_length (length : nat) :
  len (generateRandomString randByte length) = length.
Proof. apply generateRandomStringFrom_length. lia. Qed.

(** The call of line 134 takes the first six characters of one text. *)
Lemma generateRandomString_6 :
  generateRandomString randByte 6 = take 6 (ToLower (rand_Text randByte 0)).
Proof.
  unfold generateRandomString. cbn [generateRandomStringFrom].
  by rewrite len_ToLower, len_rand_Text.
Qed.

End RandomSuffix.

(** ** The handlers on concrete calls *)

Example clean_examples :
  GoPath.Clean "/must-gather/" = "/must-gather" ∧
  GoPath.Clean "/data//logs/./" = "/data/logs" ∧
  GoPath.Clean "a/b/../../.." = ".." ∧
  GoPath.Clean "/.." = "/" ∧
  GoPath.Clean "" = ".".
Proof. repeat split; vm_compute; reflexivity. Qed.

Example trim_space_examples :
  TrimSpace "  a b  " = "a b" ∧
  TrimSpace (Sample.nbsp +:+ "k" +:+ Sample.nbsp) = "k" ∧
  TrimSpace (Sample.emSpace +:+ nl +:+ "k v" +:+ Sample.ideographicSpace +:+ " ") = "k v" ∧
  TrimSpace (Sample.nbsp +:+ " " +:+ Sample.emSpace) = "" ∧
  TrimSpace (Sample.zeroWidthSpace +:+ "k ") = Sample.zeroWidthSpace +:+ "k" ∧
  TrimSpace (Sample.utf8 [32; 194]) = Sample.utf8 [194] ∧
  TrimSpace (Sample.utf8 [160; 107; 226; 128]) = Sample.utf8 [160; 107; 226; 128].
Proof. repeat split; vm_compute; reflexivity. Qed.

Example node_selector_example :
  parseNodeSelector "a=1, b = 2,malformed" = <["a" := "1"]> (<["b" := "2"]> ∅).
Proof. vm_compute. reflexivity. Qed.

Example one_image_call :
  buildGatherContainers (Sample.config ["quay.io/a"])
  = Ret [setImage (gatherContainerTemplate (Sample.config ["quay.io/a"])) "quay.io/a"].
Proof. reflexivity. Qed.

Example two_images_call :
  Sample.mustGatherPlan
    (Sample.invoke [("images", VStrings ["quay.io/a"; "quay.io/b"])])
  = Panic (IndexOutOfRange 1 1).
Proof. vm_compute. reflexivity. Qed.

Example wrongly_typed_call :
  Sample.mustGatherPlan (Sample.invoke [("host_network", VString "yes");
                                        ("timeout", VString "notaduration")])
  = Panic InterfaceConversion.
Proof. vm_compute. reflexivity. Qed.

Example since_example :
  ∃ cfg, Sample.resolveArguments (list_to_map [("since", VString "5s")]) = Ret cfg ∧
         Container_Env (gatherContainerTemplate cfg)
         = [{| EnvVar_Name := "MUST_GATHER_SINCE"; EnvVar_Value := "5s" |}].
Proof. eexists. split; vm_compute; reflexivity. Qed.

(** * More of the code: the node selector, the random suffix, the two
      handlers from end to end *)

(** ** Splitting and trimming *)

Lemma Split_nonempty (s : string) (sep : ascii) : Split s sep ≠ [].
Proof.
  destruct s as [|c s]; simpl; [done |].
  destruct (Ascii.eqb c sep); [done |]. by destruct (Split s sep).
Qed.

(** A separator between two strings separates their pieces. *)
Lemma Split_append (a b : string) (sep : ascii) :
  Split (a +:+ String sep b) sep = (Split a sep ++ Split b sep)%list.
Proof.
  induction a as [|c a IH].
  - simpl. change ("" +:+ String sep b) with (String sep b). simpl.
    by rewrite Ascii.eqb_refl.
  - rewrite ?append_cons. simpl. rewrite IH.
    destruct (Ascii.eqb c sep); [done |].
    pose proof (Split_nonempty a sep) as Hne.
    by destruct (Split a sep).
Qed.

Lemma Split_without (s : string) (sep : ascii) :
  hasByte sep s = false → Split s sep = [s].
Proof.
  induction s as [|c s IH]; simpl; [done |].
  intros H. apply orb_false_iff in H as [Hc Hs].
  rewrite Hc, (IH Hs). done.
Qed.

Lemma SplitN2_without (s : string) (sep : ascii) :
  hasByte sep s = false → SplitN2 s sep = [s].
Proof.
  induction s as [|c s IH]; simpl; [done |].
  intros H. apply orb_false_iff in H as [Hc Hs].
  rewrite Hc, (IH Hs). done.
Qed.

(** The cut is at the first separator. *)
Lemma SplitN2_first (a b : string) (sep : ascii) :
  hasByte sep a = false → SplitN2 (a +:+ String sep b) sep = [a; b].
Proof.
  induction a as [|c a IH]; simpl.
  - intros _. change ("" +:+ String sep b) with (String sep b). simpl.
    by rewrite Ascii.eqb_refl.
  - intros H. apply orb_false_iff in H as [Hc Ha].
    rewrite ?append_cons. simpl. by rewrite Hc, (IH Ha).
Qed.

Lemma hasByte_append (c : ascii) (a b : string) :
  hasByte c (a +:+ b) = hasByte c a || hasByte c b.
Proof.
  induction a as [|d a IH]; [done |].
  rewrite ?append_cons. simpl. by rewrite IH, orb_assoc.
Qed.

(** ** White space in UTF-8 *)

Ltac bytes_of H :=
  unfold isSpace, isSpace2, isSpace3, isAscii, isContinuation in H; cbv zeta in H;
  repeat rewrite ?andb_true_iff, ?orb_true_iff, ?andb_false_iff, ?orb_false_iff,
                 ?Nat.eqb_eq, ?Nat.eqb_neq, ?Nat.leb_le, ?Nat.leb_gt,
                 ?Nat.ltb_lt, ?Nat.ltb_ge in H.

Ltac bytes_goal :=
  unfold isSpace, isSpace2, isSpace3, isAscii, isContinuation; cbv zeta;
  repeat rewrite ?andb_true_iff, ?orb_true_iff, ?andb_false_iff, ?orb_false_iff,
                 ?Nat.eqb_eq, ?Nat.eqb_neq, ?Nat.leb_le, ?Nat.leb_gt,
                 ?Nat.ltb_lt, ?Nat.ltb_ge;
  lia.

Lemma isSpace2_bytes c0 c1 :
  isSpace2 c0 c1 = true → isAscii c0 = false ∧ isContinuation c0 = false ∧ isContinuation c1 = true.
Proof. intros H. bytes_of H. repeat split; bytes_goal. Qed.

Lemma isSpace3_bytes c0 c1 c2 :
  isSpace3 c0 c1 c2 = true →
  isContinuation c0 = false ∧ isContinuation c1 = true ∧ isContinuation c2 = true.
Proof. intros H. bytes_of H. repeat split; bytes_goal. Qed.

Lemma continuation_no_space c : isContinuation c = true → isSpace c = false.
Proof. intros H. bytes_of H. bytes_goal. Qed.
Lemma continuation_no_space2 c d : isContinuation c = true → isSpace2 c d = false.
Proof. intros H. bytes_of H. bytes_goal. Qed.
Lemma continuation_no_space3 c d e : isContinuation c = true → isSpace3 c d e = false.
Proof. intros H. bytes_of H. bytes_goal. Qed.
Lemma ascii_no_space2_l c d : isAscii c = true → isSpace2 c d = false.
Proof. intros H. bytes_of H. bytes_goal. Qed.
Lemma ascii_no_space2_r c d : isAscii d = true → isSpace2 c d = false.
Proof. intros H. bytes_of H. bytes_goal. Qed.
Lemma ascii_no_space3_l c d e : isAscii c = true → isSpace3 c d e = false.
Proof. intros H. bytes_of H. bytes_goal. Qed.
Lemma ascii_no_space3_m c d e : isAscii d = true → isSpace3 c d e = false.
Proof. intros H. bytes_of H. bytes_goal. Qed.
Lemma ascii_no_space3_r c d e : isAscii e = true → isSpace3 c d e = false.
Proof. intros H. bytes_of H. bytes_goal. Qed.

(** The recursion of [TrimLeft], as an induction principle. *)
Lemma TrimLeft_rec (P : string → Prop) :
  P "" →
  (∀ c0 r, isSpace c0 = true → P r → P (String c0 r)) →
  (∀ c0, isSpace c0 = false → P (String c0 "")) →
  (∀ c0 c1 r, isSpace c0 = false → isSpace2 c0 c1 = true → P r →
              P (String c0 (String c1 r))) →
  (∀ c0 c1, isSpace c0 = false → isSpace2 c0 c1 = false →
            P (String c0 (String c1 ""))) →
  (∀ c0 c1 c2 r, isSpace c0 = false → isSpace2 c0 c1 = false →
                 isSpace3 c0 c1 c2 = true → P r →
                 P (String c0 (String c1 (String c2 r)))) →
  (∀ c0 c1 c2 r, isSpace c0 = false → isSpace2 c0 c1 = false →
                 isSpace3 c0 c1 c2 = false →
                 P (String c0 (String c1 (String c2 r)))) →
  ∀ s, P s.
Proof.
  intros Hnil H1 Hs1 H2 Hs2 H3 Hs3.
  assert (∀ n s, (String.length s < n)%nat → P s) as Hall.
  { induction n as [|n IH]; intros s Hlen; [lia |].
    destruct s as [|c0 [|c1 [|c2 r]]]; simpl in *.
    - done.
    - destruct (isSpace c0) eqn:E0; [apply H1; [done | apply Hnil] | by apply Hs1].
    - destruct (isSpace c0) eqn:E0; [apply H1; [done | apply IH; simpl; lia] |].
      destruct (isSpace2 c0 c1) eqn:E1; [apply H2; [done.. | apply Hnil] | by apply Hs2].
    - destruct (isSpace c0) eqn:E0; [apply H1; [done | apply IH; simpl; lia] |].
      destruct (isSpace2 c0 c1) eqn:E1; [apply H2; [done.. | apply IH; simpl; lia] |].
      destruct (isSpace3 c0 c1 c2) eqn:E2; [apply H3; [done.. | apply IH; simpl; lia] |].
      by apply Hs3. }
  intros s. apply (Hall (S (String.length s))). lia.
Qed.

Lemma TrimLeft_1 c0 r : isSpace c0 = true → TrimLeft (String c0 r) = TrimLeft r.
Proof. simpl. by intros ->. Qed.

Lemma TrimLeft_2 c0 c1 r :
  isSpace c0 = false → isSpace2 c0 c1 = true →
  TrimLeft (String c0 (String c1 r)) = TrimLeft r.
Proof. simpl. by intros -> ->. Qed.

Lemma TrimLeft_3 c0 c1 c2 r :
  isSpace c0 = false → isSpace2 c0 c1 = false → isSpace3 c0 c1 c2 = true →
  TrimLeft (String c0 (String c1 (String c2 r))) = TrimLeft r.
Proof. simpl. by intros -> -> ->. Qed.

Lemma TrimLeft_stop1 c0 : isSpace c0 = false → TrimLeft (String c0 "") = String c0 "".
Proof. simpl. by intros ->. Qed.

Lemma TrimLeft_stop2 c0 c1 :
  isSpace c0 = false → isSpace2 c0 c1 = false →
  TrimLeft (String c0 (String c1 "")) = String c0 (String c1 "").
Proof. simpl. by intros -> ->. Qed.

Lemma TrimLeft_stop3 c0 c1 c2 r :
  isSpace c0 = false → isSpace2 c0 c1 = false → isSpace3 c0 c1 c2 = false →
  TrimLeft (String c0 (String c1 (String c2 r))) = String c0 (String c1 (String c2 r)).
Proof. simpl. by intros -> -> ->. Qed.

(** An ASCII byte that is no white space, and a continuation byte, stop the
    trimming. *)
Lemma TrimLeft_ascii c rest :
  isSpace c = false → isAscii c = true → TrimLeft (String c rest) = String c rest.
Proof.
  intros Hc Ha. destruct rest as [|c1 [|c2 r]].
  - by apply TrimLeft_stop1.
  - apply TrimLeft_stop2; [done | by apply ascii_no_space2_l].
  - apply TrimLeft_stop3; [done | by apply ascii_no_space2_l | by apply ascii_no_space3_l].
Qed.

Lemma TrimLeft_continuation c rest :
  isContinuation c = true → TrimLeft (String c rest) = String c rest.
Proof.
  intros Hc. destruct rest as [|c1 [|c2 r]].
  - by apply TrimLeft_stop1, continuation_no_space.
  - apply TrimLeft_stop2; [by apply continuation_no_space | by apply continuation_no_space2].
  - apply TrimLeft_stop3;
      [by apply continuation_no_space | by apply continuation_no_space2
      | by apply continuation_no_space3].
Qed.

Lemma TrimLeft_length (s : string) : (String.length (TrimLeft s) ≤ String.length s)%nat.
Proof.
  induction s as [| c0 r E0 IH | c0 E0 | c0 c1 r E0 E1 IH | c0 c1 E0 E1
                 | c0 c1 c2 r E0 E1 E2 IH | c0 c1 c2 r E0 E1 E2] using TrimLeft_rec.
  - done.
  - rewrite TrimLeft_1 by done. simpl. lia.
  - by rewrite TrimLeft_stop1.
  - rewrite TrimLeft_2 by done. simpl. lia.
  - by rewrite TrimLeft_stop2.
  - rewrite TrimLeft_3 by done. simpl. lia.
  - by rewrite TrimLeft_stop3.
Qed.

Lemma hasByte_TrimLeft (c : ascii) (s : string) :
  hasByte c s = false → hasByte c (TrimLeft s) = false.
Proof.
  induction s as [| c0 r E0 IH | c0 E0 | c0 c1 r E0 E1 IH | c0 c1 E0 E1
                 | c0 c1 c2 r E0 E1 E2 IH | c0 c1 c2 r E0 E1 E2] using TrimLeft_rec.
  - done.
  - rewrite TrimLeft_1 by done. simpl. intros H. apply IH.
    by apply orb_false_iff in H as [_ ?].
  - by rewrite TrimLeft_stop1.
  - rewrite TrimLeft_2 by done. simpl. intros H. apply IH.
    apply orb_false_iff in H as [_ H]. by apply orb_false_iff in H as [_ ?].
  - by rewrite TrimLeft_stop2.
  - rewrite TrimLeft_3 by done. simpl. intros H. apply IH.
    apply orb_false_iff in H as [_ H]. apply orb_false_iff in H as [_ H].
    by apply orb_false_iff in H as [_ ?].
  - by rewrite TrimLeft_stop3.
Qed.

Lemma TrimLeft_idempotent (s : string) : TrimLeft (TrimLeft s) = TrimLeft s.
Proof.
  induction s as [| c0 r E0 IH | c0 E0 | c0 c1 r E0 E1 IH | c0 c1 E0 E1
                 | c0 c1 c2 r E0 E1 E2 IH | c0 c1 c2 r E0 E1 E2] using TrimLeft_rec.
  - done.
  - by rewrite TrimLeft_1.
  - by rewrite !TrimLeft_stop1.
  - by rewrite TrimLeft_2.
  - by rewrite !TrimLeft_stop2.
  - by rewrite TrimLeft_3.
  - by rewrite !TrimLeft_stop3.
Qed.

(** White space in front is trimmed whatever follows it. *)
Lemma TrimLeft_append_space (p x : string) :
  TrimLeft p = "" → TrimLeft (p +:+ x) = TrimLeft x.
Proof.
  induction p as [| c0 r E0 IH | c0 E0 | c0 c1 r E0 E1 IH | c0 c1 E0 E1
                 | c0 c1 c2 r E0 E1 E2 IH | c0 c1 c2 r E0 E1 E2] using TrimLeft_rec.
  - done.
  - rewrite TrimLeft_1 by done. intros H. rewrite append_cons, TrimLeft_1 by done. auto.
  - by rewrite TrimLeft_stop1.
  - rewrite TrimLeft_2 by done. intros H. rewrite !append_cons, TrimLeft_2 by done. auto.
  - by rewrite TrimLeft_stop2.
  - rewrite TrimLeft_3 by done. intros H. rewrite !append_cons, TrimLeft_3 by done. auto.
  - by rewrite TrimLeft_stop3.
Qed.

(** A string that does not start with white space has no prefix that
    does. *)
Lemma TrimLeft_prefix_clean (p x : string) :
  TrimLeft (p +:+ x) = p +:+ x → TrimLeft p = p.
Proof.
  assert (∀ y z : string, (String.length y < String.length z)%nat → TrimLeft y ≠ z) as Hshort.
  { intros y z Hlen Heq. pose proof (TrimLeft_length y) as Hle. rewrite Heq in Hle. lia. }
  induction p as [| c0 r E0 IH | c0 E0 | c0 c1 r E0 E1 IH | c0 c1 E0 E1
                 | c0 c1 c2 r E0 E1 E2 IH | c0 c1 c2 r E0 E1 E2] using TrimLeft_rec.
  - done.
  - rewrite append_cons, TrimLeft_1 by done. intros H.
    apply Hshort in H; [done | simpl; lia].
  - intros _. by apply TrimLeft_stop1.
  - rewrite !append_cons, TrimLeft_2 by done. intros H.
    apply Hshort in H; [done | simpl; lia].
  - intros _. by apply TrimLeft_stop2.
  - rewrite !append_cons, TrimLeft_3 by done. intros H.
    apply Hshort in H; [done | simpl; lia].
  - intros _. by apply TrimLeft_stop3.
Qed.

Lemma isAllSpace_cons c rest :
  isAllSpace (String c rest) = false → TrimRight (String c rest) = String c (TrimRight rest).
Proof. simpl. by intros ->. Qed.

Lemma isAllSpace_clean (s : string) : s ≠ "" → TrimLeft s = s → isAllSpace s = false.
Proof. unfold isAllSpace. intros Hne ->. by destruct s. Qed.

Lemma isAllSpace_true (s : string) : isAllSpace s = true ↔ TrimLeft s = "".
Proof. unfold isAllSpace. by destruct (TrimLeft s). Qed.

Lemma hasByte_TrimRight (c : ascii) (s : string) :
  hasByte c s = false → hasByte c (TrimRight s) = false.
Proof.
  induction s as [|d s IH]; [done |].
  intros H. change (TrimRight (String d s))
    with (if isAllSpace (String d s) then "" else String d (TrimRight s)).
  destruct (isAllSpace (String d s)); [done |].
  simpl in *. apply orb_false_iff in H as [Hd Hs]. by rewrite Hd, IH.
Qed.

(** What [TrimRight] cuts off is white space. *)
Lemma TrimRight_split (s : string) : ∃ t, s = TrimRight s +:+ t ∧ TrimLeft t = "".
Proof.
  induction s as [|c s [t [Hs Ht]]]; [by exists "" |].
  change (TrimRight (String c s))
    with (if isAllSpace (String c s) then "" else String c (TrimRight s)).
  destruct (isAllSpace (String c s)) eqn:Hall.
  - exists (String c s). split; [done | by apply isAllSpace_true].
  - exists t. split; [| done]. rewrite append_cons. by rewrite <- Hs.
Qed.

Lemma TrimRight_idempotent (s : string) : TrimRight (TrimRight s) = TrimRight s.
Proof.
  induction s as [|c s IH]; [done |].
  change (TrimRight (String c s))
    with (if isAllSpace (String c s) then "" else String c (TrimRight s)).
  destruct (isAllSpace (String c s)) eqn:Hall; [done |].
  rewrite isAllSpace_cons, IH; [done |].
  destruct (isAllSpace (String c (TrimRight s))) eqn:Hkept; [| done].
  destruct (TrimRight_split s) as [t [Hs Ht]].
  apply isAllSpace_true in Hkept.
  pose proof (TrimLeft_append_space _ t Hkept) as Hwhole.
  rewrite append_cons, <- Hs, Ht in Hwhole.
  apply isAllSpace_true in Hwhole. congruence.
Qed.

Lemma TrimRight_clean (s : string) : TrimLeft s = s → TrimLeft (TrimRight s) = TrimRight s.
Proof.
  intros Hs. destruct (TrimRight_split s) as [t [Hsplit _]].
  apply (TrimLeft_prefix_clean _ t). by rewrite <- Hsplit.
Qed.

Lemma TrimSpace_idempotent (s : string) : TrimSpace (TrimSpace s) = TrimSpace s.
Proof.
  unfold TrimSpace.
  rewrite (TrimRight_clean (TrimLeft s)) by apply TrimLeft_idempotent.
  apply TrimRight_idempotent.
Qed.

Lemma TrimSpace_TrimLeft (s : string) : TrimSpace (TrimLeft s) = TrimSpace s.
Proof. unfold TrimSpace. by rewrite TrimLeft_idempotent. Qed.

(** The two sides are trimmed independently of each other. *)
Lemma TrimLeft_TrimRight (s : string) : TrimLeft (TrimRight s) = TrimRight (TrimLeft s).
Proof.
  induction s as [| c0 r E0 IH | c0 E0 | c0 c1 r E0 E1 IH | c0 c1 E0 E1
                 | c0 c1 c2 r E0 E1 E2 IH | c0 c1 c2 r E0 E1 E2] using TrimLeft_rec.
  - done.
  - rewrite TrimLeft_1 by done.
    destruct (isAllSpace (String c0 r)) eqn:Hall.
    + simpl TrimRight at 1. rewrite Hall.
      apply isAllSpace_true in Hall. rewrite TrimLeft_1 in Hall by done. by rewrite Hall.
    + rewrite isAllSpace_cons by done. by rewrite TrimLeft_1.
  - rewrite TrimLeft_stop1 by done. apply TrimRight_clean. by apply TrimLeft_stop1.
  - rewrite TrimLeft_2 by done.
    destruct (isAllSpace (String c0 (String c1 r))) eqn:Hall.
    + simpl TrimRight at 1. rewrite Hall.
      apply isAllSpace_true in Hall. rewrite TrimLeft_2 in Hall by done. by rewrite Hall.
    + rewrite isAllSpace_cons by done.
      apply isSpace2_bytes in E1 as Hbytes. destruct Hbytes as (_ & _ & Hc1).
      rewrite isAllSpace_cons
        by (apply isAllSpace_clean; [done | by apply TrimLeft_continuation]).
      by rewrite TrimLeft_2.
  - rewrite TrimLeft_stop2 by done. apply TrimRight_clean. by apply TrimLeft_stop2.
  - rewrite TrimLeft_3 by done.
    destruct (isAllSpace (String c0 (String c1 (String c2 r)))) eqn:Hall.
    + simpl TrimRight at 1. rewrite Hall.
      apply isAllSpace_true in Hall. rewrite TrimLeft_3 in Hall by done. by rewrite Hall.
    + rewrite isAllSpace_cons by done.
      apply isSpace3_bytes in E2 as Hbytes. destruct Hbytes as (_ & Hc1 & Hc2).
      rewrite !isAllSpace_cons
        by (apply isAllSpace_clean; [done | by apply TrimLeft_continuation]).
      by rewrite TrimLeft_3.
  - rewrite TrimLeft_stop3 by done. apply TrimRight_clean. by apply TrimLeft_stop3.
Qed.

Lemma TrimSpace_TrimRight (s : string) : TrimSpace (TrimRight s) = TrimSpace s.
Proof. unfold TrimSpace. by rewrite TrimLeft_TrimRight, TrimRight_idempotent. Qed.

(** An ASCII byte that is no white space stops the trimming on its side. *)
Lemma TrimLeft_before (a : string) (c : ascii) (rest : string) :
  isSpace c = false → isAscii c = true →
  TrimLeft (a +:+ String c rest) = TrimLeft a +:+ String c rest.
Proof.
  intros Hc Ha.
  induction a as [| c0 r E0 IH | c0 E0 | c0 c1 r E0 E1 IH | c0 c1 E0 E1
                 | c0 c1 c2 r E0 E1 E2 IH | c0 c1 c2 r E0 E1 E2] using TrimLeft_rec.
  - by apply TrimLeft_ascii.
  - by rewrite append_cons, !TrimLeft_1.
  - rewrite TrimLeft_stop1 by done. rewrite append_cons.
    change ("" +:+ String c rest) with (String c rest).
    destruct rest as [|c2 rest].
    + apply TrimLeft_stop2; [done | by apply ascii_no_space2_r].
    + apply TrimLeft_stop3; [done | by apply ascii_no_space2_r | by apply ascii_no_space3_m].
  - by rewrite !append_cons, !TrimLeft_2.
  - rewrite TrimLeft_stop2 by done. rewrite !append_cons.
    change ("" +:+ String c rest) with (String c rest).
    apply TrimLeft_stop3; [done | done | by apply ascii_no_space3_r].
  - by rewrite !append_cons, !TrimLeft_3.
  - rewrite TrimLeft_stop3 by done. rewrite !append_cons. by apply TrimLeft_stop3.
Qed.

Lemma TrimRight_after (a : string) (c : ascii) (rest : string) :
  isSpace c = false → isAscii c = true →
  TrimRight (a +:+ String c rest) = a +:+ String c (TrimRight rest).
Proof.
  intros Hc Ha. induction a as [|d a IH].
  - change ("" +:+ String c rest) with (String c rest).
    apply isAllSpace_cons, isAllSpace_clean; [done | by apply TrimLeft_ascii].
  - rewrite !append_cons. rewrite isAllSpace_cons; [by rewrite IH |].
    rewrite <- append_cons. unfold isAllSpace. rewrite TrimLeft_before by done.
    by destruct (TrimLeft (String d a)).
Qed.

(** ** [parseNodeSelector] *)

Lemma parseNodeSelector_pairs (selector : string) :
  parseNodeSelector selector = selectorPairs selector.
Proof. reflexivity. Qed.

Lemma selectorStep_union (m : gmap string string) (pair : string) :
  selectorStep m pair = selectorStep ∅ pair ∪ m.
Proof.
  unfold selectorStep.
  destruct (SplitN2 (TrimSpace pair) "=") as [|k [|v [|more rest]]];
    try by rewrite (left_id_L ∅ (∪)).
  by rewrite insert_empty, insert_union_singleton_l.
Qed.

Lemma fold_selectorStep_union (pieces : list string) (m : gmap string string) :
  fold_left selectorStep pieces m = fold_left selectorStep pieces ∅ ∪ m.
Proof.
  revert m. induction pieces as [|piece pieces IH]; intros m; simpl.
  - by rewrite (left_id_L ∅ (∪)).
  - rewrite (IH (selectorStep m piece)), (IH (selectorStep ∅ piece)).
    rewrite (selectorStep_union m piece). by rewrite (assoc_L (∪)).
Qed.

Lemma selectorPairs_append (a b : string) :
  selectorPairs (a +:+ "," +:+ b) = selectorPairs b ∪ selectorPairs a.
Proof.
  unfold selectorPairs. change ("," +:+ b) with (String "," b).
  rewrite Split_append, fold_left_app. apply fold_selectorStep_union.
Qed.

Lemma selectorStep_pair (m : gmap string string) (a b : string) :
  hasByte "=" a = false →
  selectorStep m (a +:+ "=" +:+ b) = <[TrimSpace a := TrimSpace b]> m.
Proof.
  intros Ha. unfold selectorStep. change ("=" +:+ b) with (String "=" b).
  unfold TrimSpace at 1.
  rewrite (TrimLeft_before a "=" b) by done.
  rewrite (TrimRight_after (TrimLeft a) "=" b) by done.
  rewrite SplitN2_first by by apply hasByte_TrimLeft.
  by rewrite TrimSpace_TrimLeft, TrimSpace_TrimRight.
Qed.

Lemma selectorPairs_pair (a b : string) :
  hasByte "=" a = false → hasByte "," a = false → hasByte "," b = false →
  selectorPairs (a +:+ "=" +:+ b) = {[TrimSpace a := TrimSpace b]}.
Proof.
  intros Heq Ha Hb. unfold selectorPairs.
  rewrite Split_without.
  - simpl. by rewrite selectorStep_pair, insert_empty.
  - change ("=" +:+ b) with (String "=" b).
    rewrite hasByte_append. simpl. by rewrite Ha, Hb.
Qed.

Lemma selectorStep_without (m : gmap string string) (piece : string) :
  hasByte "=" piece = false → selectorStep m piece = m.
Proof.
  intros H. unfold selectorStep, TrimSpace.
  by rewrite SplitN2_without by by apply hasByte_TrimRight, hasByte_TrimLeft.
Qed.

Lemma Split_hasByte (c sep : ascii) (s : string) :
  hasByte c s = false → Forall (fun piece => hasByte c piece = false) (Split s sep).
Proof.
  induction s as [|d s IH]; simpl.
  - intros _. by repeat constructor.
  - intros H. apply orb_false_iff in H as [Hd Hs]. specialize (IH Hs).
    destruct (Ascii.eqb d sep); [by constructor |].
    destruct (Split s sep) as [|piece pieces]; [by repeat constructor; simpl; rewrite Hd |].
    apply Forall_cons in IH as [Hpiece Hpieces].
    constructor; [| done]. simpl. by rewrite Hd, Hpiece.
Qed.

Lemma selectorPairs_without (selector : string) :
  hasByte "=" selector = false → selectorPairs selector = ∅.
Proof.
  intros H. unfold selectorPairs.
  pose proof (Split_hasByte "=" "," selector H) as Hpieces.
  induction Hpieces as [|piece pieces Hpiece _ IH]; simpl; [done |].
  by rewrite selectorStep_without.
Qed.

Lemma selectorStep_trimmed (m : gmap string string) (piece : string) :
  map_Forall (fun k v => trimmed k ∧ trimmed v) m →
  map_Forall (fun k v => trimmed k ∧ trimmed v) (selectorStep m piece).
Proof.
  intros Hm. unfold selectorStep.
  destruct (SplitN2 (TrimSpace piece) "=") as [|k [|v [|more rest]]]; try done.
  apply map_Forall_insert_2; [| done].
  split; apply TrimSpace_idempotent.
Qed.

(** Plain strings are trimmed and have no comma. *)
Lemma isPlain_bytes (c : ascii) :
  isPlain c = true → isAscii c = true ∧ isSpace c = false ∧ Ascii.eqb c "," = false.
Proof.
  unfold isPlain. intros H.
  apply andb_true_iff in H as [H Hcomma]. apply andb_true_iff in H as [Hascii Hspace].
  by rewrite negb_true_iff in Hspace, Hcomma.
Qed.

Lemma plainValue_no_comma (v : string) : plainValue v = true → hasByte "," v = false.
Proof.
  unfold plainValue. induction v as [|c v IH]; simpl; [done |].
  intros H. apply andb_true_iff in H as [Hc Hv].
  apply isPlain_bytes in Hc as (_ & _ & Hc). by rewrite Hc, IH.
Qed.

Lemma plainValue_TrimSpace (v : string) : plainValue v = true → TrimSpace v = v.
Proof.
  unfold plainValue, TrimSpace. intros H.
  assert (TrimLeft v = v) as ->.
  { destruct v as [|c v]; [done |]. simpl in H.
    apply andb_true_iff in H as [Hc _]. apply isPlain_bytes in Hc as (? & ? & _).
    by apply TrimLeft_ascii. }
  induction v as [|c v IH]; [done |]. simpl in H.
  apply andb_true_iff in H as [Hc Hv]. apply isPlain_bytes in Hc as (? & ? & _).
  rewrite isAllSpace_cons; [by rewrite (IH Hv) |].
  apply isAllSpace_clean; [done | by apply TrimLeft_ascii].
Qed.

Lemma selectorPairs_render (pairs : list (string * string)) :
  Forall (fun pair => plainKey (fst pair) = true ∧ plainValue (snd pair) = true) pairs →
  selectorPairs (renderSelector pairs) = list_to_map (rev pairs).
Proof.
  induction 1 as [|[k v] rest [Hk Hv] Hrest IH]; [done |].
  simpl in Hk, Hv. unfold plainKey in Hk.
  apply andb_true_iff in Hk as [Hk Hkeq]. apply negb_true_iff in Hkeq.
  assert (selectorPairs (k +:+ "=" +:+ v) = {[k := v]}) as Hone.
  { rewrite selectorPairs_pair by auto using plainValue_no_comma.
    by rewrite !plainValue_TrimSpace. }
  destruct rest as [|next rest].
  - simpl. unfold renderSelector. simpl. by rewrite Hone, insert_empty.
  - change (renderSelector ((k, v) :: next :: rest))
      with ((k +:+ "=" +:+ v) +:+ "," +:+ renderSelector (next :: rest)).
    rewrite selectorPairs_append, IH, Hone.
    change (rev ((k, v) :: next :: rest)) with (rev (next :: rest) ++ [(k, v)])%list.
    rewrite list_to_map_app. simpl. by rewrite insert_empty.
Qed.

(** X1. Pairs are read from left to right into one map: the selector
    [a,b] gives the pairs of [b] laid over those of [a], so a key that
    occurs twice keeps its last value. *)
Theorem node_selector_of_appended (a b : string) :
  parseNodeSelector (a +:+ "," +:+ b) = parseNodeSelector b ∪ parseNodeSelector a.
Proof. rewrite !parseNodeSelector_pairs. apply selectorPairs_append. Qed.

(** X2. A selector that is one pair is cut at its first [=]; the key is
    what stands before it and the value all that follows, further [=]
    included, both with the white space around them removed. *)
Theorem node_selector_of_pair (a b : string) :
  hasByte "=" a = false → hasByte "," a = false → hasByte "," b = false →
  parseNodeSelector (a +:+ "=" +:+ b) = {[TrimSpace a := TrimSpace b]}.
Proof. rewrite parseNodeSelector_pairs. apply selectorPairs_pair. Qed.

Lemma node_selector_of_pair_witness :
  TrimSpace (Sample.nbsp +:+ " zone" +:+ Sample.emSpace) = "zone" ∧
  TrimSpace (Sample.ideographicSpace +:+ "a=b " +:+ Sample.nbsp) = "a=b" ∧
  parseNodeSelector ((Sample.nbsp +:+ " zone" +:+ Sample.emSpace) +:+ "="
                     +:+ (Sample.ideographicSpace +:+ "a=b " +:+ Sample.nbsp))
  = {[TrimSpace (Sample.nbsp +:+ " zone" +:+ Sample.emSpace)
      := TrimSpace (Sample.ideographicSpace +:+ "a=b " +:+ Sample.nbsp)]}.
Proof.
  split; [vm_compute; reflexivity |]. split; [vm_compute; reflexivity |].
  apply node_selector_of_pair; vm_compute; reflexivity.
Defined.

(** X3. A selector without any [=] gives the empty map: pieces that are
    no pair are dropped without an error. *)
Theorem node_selector_without_pairs (selector : string) :
  hasByte "=" selector = false → parseNodeSelector selector = ∅.
Proof. rewrite parseNodeSelector_pairs. apply selectorPairs_without. Qed.

Lemma node_selector_without_pairs_witness :
  parseNodeSelector "worker, ,infra" = ∅.
Proof. apply node_selector_without_pairs. reflexivity. Defined.

(** X4. No key and no value of a parsed selector begins or ends with
    white space, ASCII or not: [strings.TrimSpace] leaves each as it is. *)
Theorem node_selector_is_trimmed (selector : string) :
  map_Forall (fun k v => trimmed k ∧ trimmed v) (parseNodeSelector selector).
Proof.
  rewrite parseNodeSelector_pairs. unfold selectorPairs.
  generalize (Split selector ",").
  assert (map_Forall (fun k v => trimmed k ∧ trimmed v) (∅ : gmap string string)) as Hempty
    by apply map_Forall_empty.
  revert Hempty. generalize (∅ : gmap string string).
  intros m Hm pieces. revert m Hm.
  induction pieces as [|piece pieces IH]; intros m Hm; simpl; [done |].
  by apply IH, selectorStep_trimmed.
Qed.

(** X5. Writing pairs of plain keys and values (ASCII, without white
    space and commas, a key without [=]) as [k=v,k=v,...] and parsing the
    text gives the pairs back, the last value of a repeated key winning. *)
Theorem node_selector_round_trip (pairs : list (string * string)) :
  Forall (fun pair => plainKey (fst pair) = true ∧ plainValue (snd pair) = true) pairs →
  parseNodeSelector (renderSelector pairs) = list_to_map (rev pairs).
Proof. rewrite parseNodeSelector_pairs. apply selectorPairs_render. Qed.

Lemma node_selector_round_trip_witness :
  parseNodeSelector (renderSelector [("zone", "a"); ("tier", "x=y"); ("zone", "b")])
  = list_to_map (rev [("zone", "a"); ("tier", "x=y"); ("zone", "b")]).
Proof. apply node_selector_round_trip. repeat constructor. Defined.

(** ** [generateRandomString] and the default namespace *)

Lemma allBytes_append (p : ascii → bool) (a b : string) :
  allBytes p (a +:+ b) = allBytes p a && allBytes p b.
Proof.
  induction a as [|c a IH]; [done |].
  rewrite ?append_cons. simpl. by rewrite IH, andb_assoc.
Qed.

Lemma allBytes_take (p : ascii → bool) (n : nat) (s : string) :
  allBytes p s = true → allBytes p (take n s) = true.
Proof.
  unfold take. revert n. induction s as [|c s IH]; intros [|n]; simpl; try done.
  intros H. apply andb_true_iff in H as [Hc Hs]. by rewrite Hc, IH.
Qed.

Lemma base32_letter_lower (i : nat) :
  isBase32Lower (lowerByte (default "A"%char (String.get (i mod 32) base32alphabet))) = true.
Proof.
  pose proof (Nat.mod_upper_bound i 32) as Hlt.
  generalize dependent (i mod 32). intros m Hlt.
  do 32 (destruct m as [|m]; [reflexivity |]). lia.
Qed.

Lemma lower_of_letters (letter : nat → ascii) (indices : list nat) :
  (∀ i, isBase32Lower (lowerByte (letter i)) = true) →
  allBytes isBase32Lower (ToLower (string_of_list_ascii (map letter indices))) = true.
Proof.
  intros Hletter. induction indices as [|i indices IH]; [done |].
  cbn [map string_of_list_ascii ToLower allBytes]. by rewrite Hletter, IH.
Qed.

Section RandomAlphabet.
Variable randByte : nat → nat → nat.

Lemma rand_Text_lower (call : nat) :
  allBytes isBase32Lower (ToLower (rand_Text randByte call)) = true.
Proof. unfold rand_Text. apply lower_of_letters. intros i. apply base32_letter_lower. Qed.

Lemma generateRandomStringFrom_lower (rounds call length : nat) :
  allBytes isBase32Lower (generateRandomStringFrom randByte rounds call length) = true.
Proof.
  revert call length. induction rounds as [|rounds IH]; intros call length;
    cbn [generateRandomStringFrom].
  - apply allBytes_take, rand_Text_lower.
  - destruct (len (ToLower (rand_Text randByte call)) <? length)%nat.
    + apply allBytes_take. by rewrite allBytes_append, rand_Text_lower, IH.
    + apply allBytes_take, rand_Text_lower.
Qed.

(** X6. [generateRandomString] returns a string of exactly the length
    asked for, whatever that length is, made of the lower-case letters and
    the digits 2 to 7 only. *)
Theorem random_string_shape (length : nat) :
  len (generateRandomString randByte length) = length ∧
  allBytes isBase32Lower (generateRandomString randByte length) = true.
Proof.
  split.
  - apply generateRandomStringFrom_length. lia.
  - apply generateRandomStringFrom_lower.
Qed.

End RandomAlphabet.

(** X7. Without a [namespace] argument the plan uses
    [openshift-must-gather-] followed by six characters out of the
    lower-case letters and the digits 2 to 7; a supplied namespace, the
    empty string too, is taken as it is. *)
Theorem namespace_default_or_given
    (time_ParseDuration : string → GoResult Z) (randByte : nat → nat → nat)
    (args : gmap string Value) (cfg : PlanConfig) :
  resolveArguments time_ParseDuration randByte args = Ret cfg →
  (present args "namespace" = None →
     ∃ suffix, namespace cfg = "openshift-must-gather-" +:+ suffix ∧
               len suffix = 6 ∧ allBytes isBase32Lower suffix = true) ∧
  (∀ given, present args "namespace" = Some (VString given) → namespace cfg = given).
Proof.
  intros Hcfg. apply resolveArguments_Ret in Hcfg as (_ & _ & _ & Hns & _).
  split.
  - intros Hnone. rewrite (argOr_absent _ _ _ _ Hnone) in Hns.
    injection Hns as <-. eexists. split; [reflexivity |]. split.
    + apply generateRandomStringFrom_length. lia.
    + apply generateRandomStringFrom_lower.
  - intros given Hgiven. rewrite (argOr_present _ _ _ _ _ Hgiven) in Hns.
    simpl in Hns. congruence.
Qed.

Lemma namespace_default_or_given_witness :
  ∃ cfg, Sample.resolveArguments ∅ = Ret cfg ∧
         ∃ suffix, namespace cfg = "openshift-must-gather-" +:+ suffix ∧
                   len suffix = 6 ∧ allBytes isBase32Lower suffix = true.
Proof.
  eexists. split; [vm_compute; reflexivity |].
  assert (present (∅ : gmap string Value) "namespace" = None) as Hnone
    by (vm_compute; reflexivity).
  match goal with
  | |- ∃ suffix, namespace ?cfg = _ ∧ _ =>
      assert (Sample.resolveArguments ∅ = Ret cfg) as Hcfg by (vm_compute; reflexivity)
  end.
  exact (proj1 (namespace_default_or_given Sample.ParseDuration Sample.randByte _ _ Hcfg)
               Hnone).
Defined.

(** ** [mustGatherPlan]: the [since] variable, the namespace listing, the
       serializer, the comments *)



(** The check of the list, item by item. *)
Lemma checkNamespaces_match namespace pre post found :
  forallb isNamed pre = true →
  checkNamespaces namespace (pre ++ NsNamed namespace :: post)%list found = Ok true.
Proof.
  revert found. induction pre as [|item pre IH]; intros found Hpre; simpl in *.
  - rewrite String.eqb_refl. destruct found; simpl; apply checkNamespaces_found.
  - apply andb_true_iff in Hpre as [Hitem Hpre].
    destruct item as [name | err]; [| done].
    destruct found; simpl; by apply IH.
Qed.

Lemma checkNamespaces_unconvertible namespace pre err post :
  forallb (isOther namespace) pre = true →
  checkNamespaces namespace (pre ++ NsUnconvertible err :: post)%list false = Err err.
Proof.
  induction pre as [|item pre IH]; intros Hpre; simpl in *; [done |].
  apply andb_true_iff in Hpre as [Hitem Hpre].
  destruct item as [name | other]; [| done].
  simpl in Hitem. apply negb_true_iff in Hitem. rewrite Hitem. by apply IH.
Qed.

Lemma checkNamespaces_named namespace items found :
  forallb isNamed items = true → ∃ result, checkNamespaces namespace items found = Ok result.
Proof.
  revert found. induction items as [|item items IH]; intros found Hitems; simpl in *.
  - by exists found.
  - apply andb_true_iff in Hitems as [Hitem Hitems].
    destruct item as [name | err]; [| done].
    destruct found; simpl; by apply IH.
Qed.

Lemma buildPod_up_to_one_image (cfg : PlanConfig) :
  (length (images cfg) ≤ 1)%nat → ∃ p, buildPod cfg = Ret p.
Proof.
  intros Hlen. unfold buildPod. rewrite buildGatherContainers_cases.
  destruct (images cfg) as [|first [|second rest]]; simpl in *; eauto; lia.
Qed.

(** X9. Once the pod is built, a namespace listing that fails ends the
    call with the error result [failed to list namespaces: <error>], and
    an item that cannot be converted, met before any item with the wanted
    name, ends it with [failed to check namespaces list: <error>]. *)
Theorem listing_errors_are_tool_errors (cfg : PlanConfig) :
  (length (images cfg) ≤ 1)%nat →
  (∀ err, buildPlan cfg (Err err) = ToolError ("failed to list namespaces: " +:+ err)) ∧
  (∀ pre err post,
     forallb (isOther (namespace cfg)) pre = true →
     buildPlan cfg (Ok (pre ++ NsUnconvertible err :: post)%list)
     = ToolError ("failed to check namespaces list: " +:+ err)).
Proof.
  intros Hlen. destruct (buildPod_up_to_one_image cfg Hlen) as [p Hp].
  split.
  - intros err. unfold buildPlan. by rewrite Hp.
  - intros pre err post Hpre. unfold buildPlan. rewrite Hp. simpl.
    by rewrite checkNamespaces_unconvertible.
Qed.

Lemma listing_errors_are_tool_errors_witness :
  buildPlan (Sample.config []) (Err "connection refused")
  = ToolError "failed to list namespaces: connection refused" ∧
  buildPlan (Sample.config [])
    (Ok [NsNamed "default"; NsUnconvertible "bad object";
         NsNamed "openshift-must-gather-ahov4d"])
  = ToolError "failed to check namespaces list: bad object".
Proof.
  destruct (listing_errors_are_tool_errors (Sample.config [])) as [Hlist Hcheck].
  - simpl. lia.
  - split; [apply Hlist |].
    apply (Hcheck [NsNamed "default"] "bad object"
                  [NsNamed "openshift-must-gather-ahov4d"]).
    reflexivity.
Defined.

(** X10. With at most one image, so that the pod is built, the check of
    the namespace list stops looking once it has found the name: whatever
    follows the first match, items that cannot be converted included, the
    plan is built, without a namespace descriptor. *)
Theorem items_after_the_match_are_skipped
    (cfg : PlanConfig) (pre post : list NsItem) :
  (length (images cfg) ≤ 1)%nat →
  forallb isNamed pre = true →
  ∃ plan, buildPlan cfg (Ok (pre ++ NsNamed (namespace cfg) :: post)%list) = Ret plan ∧
          namespaceExists plan = true ∧ namespaceObj plan = None.
Proof.
  intros Hlen Hpre. destruct (buildPod_up_to_one_image cfg Hlen) as [p Hp].
  unfold buildPlan. rewrite Hp. simpl.
  rewrite checkNamespaces_match by done.
  eexists. split; [reflexivity |]. by split.
Qed.

Lemma items_after_the_match_are_skipped_witness :
  ∃ plan,
    buildPlan (Sample.config [])
      (Ok ([NsNamed "default"] ++ NsNamed "openshift-must-gather-ahov4d"
             :: [NsUnconvertible "bad object"])%list) = Ret plan ∧
    namespaceExists plan = true ∧ namespaceObj plan = None.
Proof.
  apply (items_after_the_match_are_skipped (Sample.config []) [NsNamed "default"]
           [NsUnconvertible "bad object"]).
  - simpl. lia.
  - reflexivity.
Defined.

Section Serializer.
Variable yaml_Marshal : Object → GoResult string.

Lemma marshalOr_Ok what obj bytes :
  yaml_Marshal obj = Ok bytes → marshalOr yaml_Marshal what obj = Ret bytes.
Proof. unfold marshalOr. by intros ->. Qed.

Lemma marshalOr_Err what obj err :
  yaml_Marshal obj = Err err → marshalOr yaml_Marshal what obj = Fatal (what +:+ ": " +:+ err).
Proof. unfold marshalOr. by intros ->. Qed.

(** X11. Rendering is all or nothing. Either every descriptor of the plan
    is serialized and the text is returned, or one of them fails and the
    call returns the error [failed to marshal ...] alone: the documents
    written before the failure are not returned. *)
Theorem rendering_is_all_or_nothing (cfg : PlanConfig) (plan : ResourcePlan) :
  (Forall (fun obj => ∃ bytes, yaml_Marshal obj = Ok bytes) (documents plan) ∧
   ∃ text, renderPlan yaml_Marshal cfg plan = Ret text) ∨
  (Exists (fun obj => ∃ err, yaml_Marshal obj = Err err) (documents plan) ∧
   ∃ what, renderPlan yaml_Marshal cfg plan = Fatal ("failed to marshal " +:+ what)).
Proof.
  unfold renderPlan, documents.
  destruct (namespaceExists plan);
    [| destruct (yaml_Marshal (ONamespace (namespaceObj plan))) as [ns | e] eqn:Hns ];
    (destruct (yaml_Marshal (OServiceAccount (serviceAccount plan)))
       as [sa | e1] eqn:Hsa);
    (destruct (yaml_Marshal (OClusterRoleBinding (clusterRoleBinding plan)))
       as [crb | e2] eqn:Hcrb);
    (destruct (yaml_Marshal (OPod (pod plan))) as [p | e3] eqn:Hpod);
    simpl;
    repeat first
      [ rewrite (marshalOr_Ok _ _ _ Hns) | rewrite (marshalOr_Err _ _ _ Hns)
      | rewrite (marshalOr_Ok _ _ _ Hsa) | rewrite (marshalOr_Err _ _ _ Hsa)
      | rewrite (marshalOr_Ok _ _ _ Hcrb) | rewrite (marshalOr_Err _ _ _ Hcrb)
      | rewrite (marshalOr_Ok _ _ _ Hpod) | rewrite (marshalOr_Err _ _ _ Hpod)
      | rewrite bind_Ret; cbv beta ];
    first
      [ left; split; [by repeat constructor; eauto | by eexists]
      | right; split;
        [ rewrite Exists_exists;
          first [ exists (ONamespace (namespaceObj plan)); split; [set_solver | by eauto]
                | exists (OServiceAccount (serviceAccount plan)); split; [set_solver | by eauto]
                | exists (OClusterRoleBinding (clusterRoleBinding plan));
                  split; [set_solver | by eauto]
                | exists (OPod (pod plan)); split; [set_solver | by eauto] ]
        | eexists; reflexivity ] ].
Qed.

End Serializer.

Lemma HasPrefix_self (s : string) : HasPrefix s s = true.
Proof. induction s as [|c s IH]; simpl; [done |]. by rewrite Ascii.eqb_refl. Qed.

Lemma Contains_self (s : string) : Contains s s = true.
Proof. destruct s; simpl; [done |]. by rewrite Ascii.eqb_refl, HasPrefix_self. Qed.

(** X12. Unless [keep_namespace] is set, the comments end with the two
    commands that undo the plan: they delete the resolved namespace and
    the cluster role binding under the very name the plan gives it. *)
Theorem cleanup_commands_name_the_plan
    (cfg : PlanConfig) (listing : GoResult (list NsItem)) (plan : ResourcePlan) :
  buildPlan cfg listing = Ret plan →
  keepNamespace cfg = false →
  Contains (planComments cfg plan) ("# kubectl delete ns " +:+ namespace cfg +:+ nl) = true ∧
  Contains (planComments cfg plan)
    ("# kubectl delete clusterrolebinding "
       +:+ ObjectMeta_Name (ClusterRoleBinding_ObjectMeta (clusterRoleBinding plan))
       +:+ nl) = true.
Proof.
  intros Hplan Hkeep.
  apply buildPlan_Ret in Hplan as (p & items & found & _ & _ & _ & ->).
  unfold planComments. rewrite Hkeep. simpl negb. cbv iota.
  change (clusterRoleBindingName _) with (bindingName cfg).
  change (ObjectMeta_Name _) with (bindingName cfg).
  split.
  - do 8 apply Contains_append_r. apply Contains_append_l.
    do 2 apply Contains_append_r. apply Contains_append_l. apply Contains_self.
  - do 8 apply Contains_append_r. apply Contains_append_l.
    do 3 apply Contains_append_r. apply Contains_self.
Qed.

Lemma cleanup_commands_name_the_plan_witness :
  ∃ plan,
    buildPlan (Sample.config []) (Ok []) = Ret plan ∧
    Contains (planComments (Sample.config []) plan)
      ("# kubectl delete clusterrolebinding "
         +:+ "must-gather-collector-openshift-must-gather-ahov4d" +:+ nl) = true.
Proof.
  eexists. split; [reflexivity |].
  refine (proj2 (cleanup_commands_name_the_plan (Sample.config []) (Ok []) _ _ _));
    reflexivity.
Defined.

(** X13. A pod that was built has exactly two containers, one gather
    container and the wait container last; it declares the one volume
    [must-gather-collection], an empty directory, and every volume a
    container mounts is that volume. *)
Theorem built_pod_shape (cfg : PlanConfig) (p : Pod) :
  buildPod cfg = Ret p →
  length (PodSpec_Containers (Pod_Spec p)) = 2 ∧
  last (PodSpec_Containers (Pod_Spec p)) = Some waitContainer ∧
  PodSpec_Volumes (Pod_Spec p)
    = [{| Volume_Name := "must-gather-collection"; Volume_EmptyDir := true |}] ∧
  Forall (fun name => name ∈ declaredVolumes p) (mountedVolumes p).
Proof.
  unfold buildPod. intros H. apply bind_Ret_inv in H as (cs & Hcs & H).
  injection H as <-.
  apply buildGatherContainers_Ret in Hcs as [[_ ->] | (image & _ & ->)];
    (repeat split; [done .. |]);
    unfold mountedVolumes, declaredVolumes; simpl;
    repeat constructor.
Qed.

Lemma built_pod_shape_witness :
  ∃ p, buildPod (Sample.config ["quay.io/a"]) = Ret p ∧
       length (PodSpec_Containers (Pod_Spec p)) = 2 ∧
       last (PodSpec_Containers (Pod_Spec p)) = Some waitContainer.
Proof.
  eexists. split; [reflexivity |].
  destruct (built_pod_shape (Sample.config ["quay.io/a"]) _ eq_refl) as (Hlen & Hlast & _).
  split; [exact Hlen | exact Hlast].
Defined.

(** ** [mustGatherPlan], its type assertions and the schema it declares *)

Lemma argAsserted_string args key :
  argAsserted args key GoString = true →
  present args key = None ∨ ∃ s, present args key = Some (VString s).
Proof.
  unfold argAsserted. destruct (present args key) as [[]|]; simpl; intros H;
    try discriminate; eauto.
Qed.

(** A string or boolean property that is valid for the schema passes the
    assertion it is read with. *)
Lemma schemaValid_property args key ty :
  schemaValid args = true → (key, ty) ∈ InputSchema →
  match args !! key with Some v => validFor ty v | None => true end = true.
Proof.
  unfold schemaValid. rewrite forallb_forall. intros Hall Hin.
  apply (Hall (key, ty)). by apply list_elem_of_In.
Qed.

Lemma schemaValid_string args key :
  schemaValid args = true → (key, TString) ∈ InputSchema →
  argAsserted args key GoString = true.
Proof.
  intros Hvalid Hin. pose proof (schemaValid_property _ _ _ Hvalid Hin) as H.
  unfold argAsserted, present. by destruct (args !! key) as [[]|].
Qed.

Lemma schemaValid_boolean args key :
  schemaValid args = true → (key, TBoolean) ∈ InputSchema →
  argAsserted args key GoBool = true.
Proof.
  intros Hvalid Hin. pose proof (schemaValid_property _ _ _ Hvalid Hin) as H.
  unfold argAsserted, present. by destruct (args !! key) as [[]|].
Qed.

Ltac in_schema :=
  unfold InputSchema; repeat first [apply list_elem_of_here | apply list_elem_of_further].

Lemma schemaValid_before_images args :
  schemaValid args = true → assertedBefore "images" args = true.
Proof.
  intros Hvalid. unfold assertedBefore. cbn [before assertions fst snd String.eqb Ascii.eqb Bool.eqb forallb].
  rewrite !andb_true_iff.
  repeat split;
    first [ apply schemaValid_string; [done | in_schema]
          | apply schemaValid_boolean; [done | in_schema] ].
Qed.

Section Schema.
Variable time_ParseDuration : string → GoResult Z.
Variable yaml_Marshal : Object → GoResult string.
Variable randByte : nat → nat → nat.

Local Abbreviation resolve := (resolveArguments time_ParseDuration randByte).
Local Abbreviation run := (mustGatherPlan time_ParseDuration yaml_Marshal randByte).

(** X14. Arguments that pass the handler's type assertions (each one left
    out, [nil], or of the Go type asserted: [string], [bool], and
    [[]string] for [images]) are read without a panic: the resolution gives
    a configuration, or one of the two duration errors. *)
Theorem asserted_arguments_resolve_or_fail (args : gmap string Value) :
  asserted args = true →
  (∃ cfg, resolve args = Ret cfg) ∨
  resolve args = ToolError "timeout duration is not valid" ∨
  resolve args = ToolError "since duration is not valid".
Proof.
  intros Hconf. unfold resolveArguments.
  read_next Hconf "node_name" GoString.
  read_next Hconf "node_selector" GoString.
  read_next Hconf "host_network" GoBool.
  read_next Hconf "source_dir" GoString.
  read_next Hconf "namespace" GoString.
  read_next Hconf "keep_namespace" GoBool.
  read_next Hconf "gather_command" GoString.
  read_next Hconf "all_component_images" GoBool.
  read_next Hconf "images" GoStringSlice.
  assert (argAsserted args "timeout" GoString = true) as Htimeout
    by (apply (asserted_arg _ _ _ _ Hconf); in_assertions).
  assert (argAsserted args "since" GoString = true) as Hsince
    by (apply (asserted_arg _ _ _ _ Hconf); in_assertions).
  apply argAsserted_string in Htimeout as [Ht | [t Ht]];
    [ rewrite (argOr_absent _ _ _ _ Ht)
    | rewrite (argOr_present _ _ _ _ _ Ht); unfold readTimeout; simpl;
      destruct (time_ParseDuration t); [| by right; left] ];
    rewrite bind_Ret; cbv beta;
    (apply argAsserted_string in Hsince as [Hs | [s Hs]];
     [ rewrite (argOr_absent _ _ _ _ Hs)
     | rewrite (argOr_present _ _ _ _ _ Hs); unfold readSince; simpl;
       destruct (time_ParseDuration s); [| by right; right] ]);
    rewrite bind_Ret; cbv beta; left; by eexists.
Qed.

(** X15. The schema and the assertion on [images] disagree: a call that is
    valid for the declared schema and gives [images], as the array the
    schema asks for and which arrives as a [[]any], never gets a plan. The
    handler panics in [args["images"].([]string)], whatever the items and
    the other arguments are. *)
Theorem schema_valid_images_panic (params : ToolHandlerParams) (items : list Item) :
  schemaValid (GetArguments params) = true →
  GetArguments params !! "images" = Some (VArray items) →
  resolve (GetArguments params) = Panic InterfaceConversion ∧
  run params = Panic InterfaceConversion.
Proof.
  intros Hvalid Himages.
  assert (resolve (GetArguments params) = Panic InterfaceConversion) as Hpanic.
  { apply (resolve_images_array_panics _ _ _ items).
    - by apply schemaValid_before_images.
    - unfold present. by rewrite Himages. }
  split; [exact Hpanic |]. unfold mustGatherPlan. by rewrite Hpanic.
Qed.

End Schema.

Lemma asserted_arguments_resolve_or_fail_witness :
  (∃ cfg, Sample.resolveArguments
            (list_to_map [("host_network", VBool true); ("timeout", VString "2h10m30s")])
          = Ret cfg) ∨
  Sample.resolveArguments
    (list_to_map [("host_network", VBool true); ("timeout", VString "2h10m30s")])
  = ToolError "timeout duration is not valid" ∨
  Sample.resolveArguments
    (list_to_map [("host_network", VBool true); ("timeout", VString "2h10m30s")])
  = ToolError "since duration is not valid".
Proof.
  apply (asserted_arguments_resolve_or_fail Sample.ParseDuration Sample.randByte).
  vm_compute. reflexivity.
Defined.

Lemma schema_valid_images_panic_witness :
  Sample.mustGatherPlan
    (Sample.invoke [("node_name", VString "master-0"); ("images", VArray [])])
  = Panic InterfaceConversion.
Proof.
  apply (schema_valid_images_panic Sample.ParseDuration Sample.Marshal Sample.randByte
           (Sample.invoke [("node_name", VString "master-0"); ("images", VArray [])]) []);
    vm_compute; reflexivity.
Defined.

(** ** [mustGatherPlan]: the inert flag, the default directory, the calls
       that succeed *)

Lemma fmap_bind {A B C} (f : B → C) (m : Outcome A) (g : A → Outcome B) :
  f <$> (m ≫= g) = m ≫= (fun a => f <$> g a).
Proof. by destruct m. Qed.

Lemma present_delete_eq args key : present (delete key args) key = None.
Proof. unfold present. by rewrite lookup_delete_eq. Qed.

Lemma argAsserted_bool args key :
  argAsserted args key GoBool = true →
  present args key = None ∨ ∃ b, present args key = Some (VBool b).
Proof.
  unfold argAsserted. destruct (present args key) as [[]|]; simpl; intros H;
    try discriminate; eauto.
Qed.

Lemma buildPlan_withAllImages flag cfg listing :
  buildPlan (withAllImages flag cfg) listing = buildPlan cfg listing.
Proof. reflexivity. Qed.

Lemma renderPlan_withAllImages yaml_Marshal flag cfg plan :
  renderPlan yaml_Marshal (withAllImages flag cfg) plan = renderPlan yaml_Marshal cfg plan.
Proof. reflexivity. Qed.

Lemma resolveArguments_without_all_images
    (time_ParseDuration : string → GoResult Z) (randByte : nat → nat → nat) args :
  argAsserted args "all_component_images" GoBool = true →
  resolveArguments time_ParseDuration randByte (delete "all_component_images" args)
  = withAllImages false <$> resolveArguments time_ParseDuration randByte args.
Proof.
  intros Hflag. unfold resolveArguments.
  rewrite (argOr_delete_ne args "all_component_images" "node_name") by done.
  rewrite (argOr_delete_ne args "all_component_images" "node_selector") by done.
  rewrite (argOr_delete_ne args "all_component_images" "host_network") by done.
  rewrite (argOr_delete_ne args "all_component_images" "source_dir") by done.
  rewrite (argOr_delete_ne args "all_component_images" "namespace") by done.
  rewrite (argOr_delete_ne args "all_component_images" "keep_namespace") by done.
  rewrite (argOr_delete_ne args "all_component_images" "gather_command") by done.
  rewrite (argOr_delete_ne args "all_component_images" "images") by done.
  rewrite (argOr_delete_ne args "all_component_images" "since") by done.
  do 7 (rewrite fmap_bind; apply bind_ext; intros ?).
  rewrite (argOr_absent _ _ _ _ (present_delete_eq args "all_component_images")).
  rewrite bind_Ret. cbv beta.
  apply argAsserted_bool in Hflag as [Hnone | [b Hb]];
    [ rewrite (argOr_absent args _ _ _ Hnone)
    | rewrite (argOr_present args _ _ _ _ Hb); simpl assertBool ];
    rewrite (bind_Ret (B := PlanConfig)); cbv beta;
    repeat first
      [ reflexivity
      | rewrite (argOr_delete_ne args "all_component_images") by done
      | rewrite fmap_bind; apply bind_ext; intros ? ].
Qed.

(** X16. The [all_component_images] flag changes nothing: a call that
    sets it, to either value, returns what the same call without the flag
    returns. *)
Theorem all_component_images_is_inert
    (time_ParseDuration : string → GoResult Z)
    (yaml_Marshal : Object → GoResult string)
    (randByte : nat → nat → nat) (params : ToolHandlerParams) :
  argAsserted (GetArguments params) "all_component_images" GoBool = true →
  mustGatherPlan time_ParseDuration yaml_Marshal randByte params
  = mustGatherPlan time_ParseDuration yaml_Marshal randByte
      (withoutArgument "all_component_images" params).
Proof.
  intros Hflag. unfold mustGatherPlan, withoutArgument. simpl.
  rewrite (resolveArguments_without_all_images _ _ _ Hflag).
  destruct (resolveArguments time_ParseDuration randByte (GetArguments params));
    simpl; [| done ..].
  rewrite buildPlan_withAllImages. apply bind_ext. intros plan.
  by rewrite renderPlan_withAllImages.
Qed.

Lemma all_component_images_is_inert_witness :
  Sample.mustGatherPlan (Sample.invoke [("all_component_images", VBool true)])
  = Sample.mustGatherPlan
      (withoutArgument "all_component_images"
         (Sample.invoke [("all_component_images", VBool true)])).
Proof.
  apply (all_component_images_is_inert Sample.ParseDuration Sample.Marshal Sample.randByte).
  vm_compute. reflexivity.
Defined.



Lemma renderPlan_total (yaml_Marshal : Object → GoResult string) cfg plan :
  (∀ obj, ∃ bytes, yaml_Marshal obj = Ok bytes) →
  ∃ text, renderPlan yaml_Marshal cfg plan = Ret text.
Proof.
  intros Hall. unfold renderPlan.
  destruct (Hall (ONamespace (namespaceObj plan))) as [ns Hns].
  destruct (Hall (OServiceAccount (serviceAccount plan))) as [sa Hsa].
  destruct (Hall (OClusterRoleBinding (clusterRoleBinding plan))) as [crb Hcrb].
  destruct (Hall (OPod (pod plan))) as [p Hp].
  rewrite (marshalOr_Ok _ _ _ _ Hsa), (marshalOr_Ok _ _ _ _ Hcrb), (marshalOr_Ok _ _ _ _ Hp).
  destruct (namespaceExists plan); simpl; [by eexists |].
  rewrite (marshalOr_Ok _ _ _ _ Hns). simpl. by eexists.
Qed.

Lemma argOr_images_length args (images : list string) :
  (∀ l, present args "images" = Some (VStrings l) → (length l ≤ 1)%nat) →
  argOr args "images" assertStrings [] = Ret images → (length images ≤ 1)%nat.
Proof.
  intros Hfew. unfold argOr.
  destruct (present args "images") as [[]|] eqn:Hpresent; simpl; intros H;
    simplify_eq; [by apply Hfew | simpl; lia].
Qed.

(** X18. A call returns a plan text whenever its arguments pass the
    handler's type assertions ([images], if given, being a [[]string]), the
    durations it gives are accepted, it names at most one image, the
    namespaces are listed and convert, and the serializer accepts every
    descriptor. *)
Theorem plan_is_returned
    (time_ParseDuration : string → GoResult Z)
    (yaml_Marshal : Object → GoResult string)
    (randByte : nat → nat → nat)
    (params : ToolHandlerParams) (items : list NsItem) :
  asserted (GetArguments params) = true →
  (∀ t, present (GetArguments params) "timeout" = Some (VString t) →
        ∃ d, time_ParseDuration t = Ok d) →
  (∀ s, present (GetArguments params) "since" = Some (VString s) →
        ∃ d, time_ParseDuration s = Ok d) →
  (∀ l, present (GetArguments params) "images" = Some (VStrings l) →
        (length l ≤ 1)%nat) →
  NamespacesList params = Ok items →
  forallb isNamed items = true →
  (∀ obj, ∃ bytes, yaml_Marshal obj = Ok bytes) →
  ∃ text, mustGatherPlan time_ParseDuration yaml_Marshal randByte params = Ret text.
Proof.
  intros Hconf Htimeout Hsince Hfew Hlist Hitems Hall.
  unfold mustGatherPlan, resolveArguments. rewrite Hlist.
  set (args := GetArguments params) in *.
  read_next Hconf "node_name" GoString.
  read_next Hconf "node_selector" GoString.
  read_next Hconf "host_network" GoBool.
  read_next Hconf "source_dir" GoString.
  read_next Hconf "namespace" GoString.
  read_next Hconf "keep_namespace" GoBool.
  read_next Hconf "gather_command" GoString.
  read_next Hconf "all_component_images" GoBool.
  read_next Hconf "images" GoStringSlice.
  pose proof (argOr_images_length _ _ Hfew Ha7) as Hlen.
  assert (argAsserted args "timeout" GoString = true) as Ht
    by (apply (asserted_arg _ _ _ _ Hconf); in_assertions).
  assert (argAsserted args "since" GoString = true) as Hs
    by (apply (asserted_arg _ _ _ _ Hconf); in_assertions).
  apply argAsserted_string in Ht as [Ht | [t Ht]];
    [ rewrite (argOr_absent _ _ _ _ Ht)
    | rewrite (argOr_present _ _ _ _ _ Ht); unfold readTimeout; simpl;
      destruct (Htimeout t Ht) as [d ->] ];
    rewrite bind_Ret; cbv beta;
    (apply argAsserted_string in Hs as [Hs | [s Hs]];
     [ rewrite (argOr_absent _ _ _ _ Hs)
     | rewrite (argOr_present _ _ _ _ _ Hs); unfold readSince; simpl;
       destruct (Hsince s Hs) as [d' ->] ]);
    rewrite bind_Ret; cbv beta; rewrite bind_Ret; cbv beta;
    match goal with
    | |- ∃ text, (buildPlan ?cfg _ ≫= _) = _ =>
        destruct (checkNamespaces_named (namespace cfg) items false Hitems)
          as [found Hfound];
        destruct (buildPlan_total_up_to_one_image cfg items found Hlen Hfound)
          as [plan ->];
        rewrite bind_Ret; by apply renderPlan_total
    end.
Qed.

Lemma plan_is_returned_witness :
  ∃ text, Sample.mustGatherPlan
            (Sample.invoke [("images", VStrings ["quay.io/a"]);
                            ("timeout", VString "30s")]) = Ret text.
Proof.
  apply (plan_is_returned Sample.ParseDuration Sample.Marshal Sample.randByte
           (Sample.invoke [("images", VStrings ["quay.io/a"]); ("timeout", VString "30s")])
           [NsNamed "default"; NsNamed "debug"]).
  - vm_compute. reflexivity.
  - intros t Ht. vm_compute in Ht. injection Ht as <-. eexists. vm_compute. reflexivity.
  - intros s Hs. vm_compute in Hs. discriminate.
  - intros l Hl. vm_compute in Hl. injection Hl as <-. simpl. lia.
  - reflexivity.
  - reflexivity.
  - intros [[ns|]|sa|crb|p]; eexists; reflexivity.
Defined.

(** ** The handler of [must_gather_plan.go] *)

Section MustGatherPlanHandler.
Variable yaml_Marshal : Object → GoResult string.
Variable rand_String : nat → string.

Local Abbreviation handle := (MustGatherPlan.handler yaml_Marshal rand_String).

Lemma legacy_marshalOr_Ret what obj bytes :
  MustGatherPlan.marshalOr yaml_Marshal what obj = Ret bytes → yaml_Marshal obj = Ok bytes.
Proof.
  unfold MustGatherPlan.marshalOr. destruct (yaml_Marshal obj); intros H; by simplify_eq.
Qed.

(** X19. The handler of [must_gather_plan.go] never panics and never
    returns an error result: for any arguments, of whatever types, it
    returns its text or a plain error. A value that is no string counts as
    a missing argument. *)
Theorem must_gather_plan_returns_or_fails (params : ToolHandlerParams) :
  (∃ text, handle params = Ret text) ∨ (∃ err, handle params = Fatal err).
Proof.
  unfold MustGatherPlan.handler. cbv zeta.
  destruct (negb (stringOrZero (GetArguments params) "image_stream" =? ""));
    [right; by eexists |].
  unfold MustGatherPlan.marshalOr.
  repeat match goal with
         | |- context [yaml_Marshal ?obj] => destruct (yaml_Marshal obj); simpl
         end;
    first [left; by eexists | right; by eexists].
Qed.

(** X20. A text returned by the handler of [must_gather_plan.go] is its
    comment lines followed by four documents, each after a separator line
    of its own: the namespace [openshift-must-gather-<suffix>], the service
    account, the cluster role binding and the pod [must-gather-<suffix>]
    with the same suffix, whose image is the [image] argument or, when that
    is empty, missing or no string, the default must-gather image. *)
Theorem must_gather_plan_text_layout (params : ToolHandlerParams) (text : string) :
  handle params = Ret text →
  ∃ comments namespaceYaml serviceAccountYaml clusterRoleBindingYaml podYaml image,
    image = (if stringOrZero (GetArguments params) "image" =? ""
             then "registry.redhat.io/openshift4/ose-must-gather:latest"
             else stringOrZero (GetArguments params) "image") ∧
    yaml_Marshal
      (ONamespace (Some (MustGatherPlan.buildNamespace
                           ("openshift-must-gather-" +:+ rand_String 5))))
      = Ok namespaceYaml ∧
    yaml_Marshal
      (OServiceAccount (MustGatherPlan.buildServiceAccount
                          ("openshift-must-gather-" +:+ rand_String 5)))
      = Ok serviceAccountYaml ∧
    yaml_Marshal
      (OClusterRoleBinding
         (MustGatherPlan.buildClusterRoleBinding
            (("openshift-must-gather-" +:+ rand_String 5) +:+ "-" +:+ "must-gather-admin")
            ("openshift-must-gather-" +:+ rand_String 5)))
      = Ok clusterRoleBindingYaml ∧
    yaml_Marshal
      (OPod (MustGatherPlan.buildPod ("must-gather-" +:+ rand_String 5)
               ("openshift-must-gather-" +:+ rand_String 5) image
               (stringOrZero (GetArguments params) "node_name")))
      = Ok podYaml ∧
    text = comments +:+ written [separator; namespaceYaml;
                                 separator; serviceAccountYaml;
                                 separator; clusterRoleBindingYaml;
                                 separator; podYaml].
Proof.
  unfold MustGatherPlan.handler. cbv zeta.
  destruct (negb (stringOrZero (GetArguments params) "image_stream" =? ""));
    [done |].
  intros H.
  apply bind_Ret_inv in H as (nsYaml & Hns%legacy_marshalOr_Ret & H).
  apply bind_Ret_inv in H as (saYaml & Hsa%legacy_marshalOr_Ret & H).
  apply bind_Ret_inv in H as (crbYaml & Hcrb%legacy_marshalOr_Ret & H).
  apply bind_Ret_inv in H as (podYaml & Hpod%legacy_marshalOr_Ret & H).
  injection H as <-.
  eexists _, nsYaml, saYaml, crbYaml, podYaml, _.
  split; [reflexivity |].
  split; [exact Hns |]. split; [exact Hsa |]. split; [exact Hcrb |]. split; [exact Hpod |].
  unfold written, separator. cbn [String.concat].
  set (rest := ("---" +:+ nl) +:+ "" +:+ nsYaml +:+ _).
  change (("---" +:+ nl) +:+ nsYaml +:+ ("---" +:+ nl) +:+ saYaml
            +:+ ("---" +:+ nl) +:+ crbYaml +:+ ("---" +:+ nl) +:+ podYaml) with rest.
  repeat rewrite <- append_assoc. reflexivity.
Qed.

End MustGatherPlanHandler.

Lemma must_gather_plan_text_layout_witness :
  ∃ text comments namespaceYaml serviceAccountYaml clusterRoleBindingYaml podYaml,
    Sample.handler (Sample.invoke [("image", VBool true)]) = Ret text ∧
    Sample.Marshal
      (OPod (MustGatherPlan.buildPod "must-gather-x7k2q" "openshift-must-gather-x7k2q"
               "registry.redhat.io/openshift4/ose-must-gather:latest" ""))
      = Ok podYaml ∧
    text = comments +:+ written [separator; namespaceYaml;
                                 separator; serviceAccountYaml;
                                 separator; clusterRoleBindingYaml;
                                 separator; podYaml].
Proof.
  destruct (must_gather_plan_text_layout Sample.Marshal Sample.rand_String
              (Sample.invoke [("image", VBool true)])
              (match Sample.handler (Sample.invoke [("image", VBool true)])
               with Ret text => text | _ => "" end))
    as (comments & nsYaml & saYaml & crbYaml & podYaml & image
        & Himage & _ & _ & _ & Hpod & Htext).
  { vm_compute. reflexivity. }
  eexists _, comments, nsYaml, saYaml, crbYaml, podYaml.
  split; [vm_compute; reflexivity |].
  split; [| exact Htext].
  rewrite <- Hpod, Himage. vm_compute. reflexivity.
Defined.

(** ** [mustGatherPlan]: scheduling and the service account *)

Lemma resolveArguments_selector
    (time_ParseDuration : string → GoResult Z) (randByte : nat → nat → nat) args cfg :
  resolveArguments time_ParseDuration randByte args = Ret cfg →
  argOr args "node_selector" (fun v => parseNodeSelector <$> assertString v) ∅
  = Ret (nodeSelector cfg).
Proof.
  unfold resolveArguments. intros H.
  repeat (apply bind_Ret_inv in H as (? & ? & H)).
  by simplify_eq.
Qed.

(** X21. The scheduling arguments reach the pod: its node name is the
    [node_name] argument, its node selector the parsed [node_selector]
    argument and its host-network flag the [host_network] argument, each
    empty or unset when the argument is left out. *)
Theorem scheduling_arguments_reach_the_pod
    (time_ParseDuration : string → GoResult Z) (randByte : nat → nat → nat)
    (args : gmap string Value) (cfg : PlanConfig) (p : Pod) :
  resolveArguments time_ParseDuration randByte args = Ret cfg →
  buildPod cfg = Ret p →
  (∀ name, present args "node_name" = Some (VString name) →
           PodSpec_NodeName (Pod_Spec p) = name) ∧
  (present args "node_name" = None → PodSpec_NodeName (Pod_Spec p) = "") ∧
  (∀ selector, present args "node_selector" = Some (VString selector) →
               PodSpec_NodeSelector (Pod_Spec p) = parseNodeSelector selector) ∧
  (present args "node_selector" = None → PodSpec_NodeSelector (Pod_Spec p) = ∅) ∧
  (∀ flag, present args "host_network" = Some (VBool flag) →
           PodSpec_HostNetwork (Pod_Spec p) = flag) ∧
  (present args "host_network" = None → PodSpec_HostNetwork (Pod_Spec p) = false).
Proof.
  intros Hcfg Hp.
  pose proof (resolveArguments_selector _ _ _ _ Hcfg) as Hselector.
  apply resolveArguments_Ret in Hcfg as (Hname & Hhost & _).
  unfold buildPod in Hp. apply bind_Ret_inv in Hp as (cs & _ & Hp).
  injection Hp as <-. simpl.
  repeat split.
  - intros name H. rewrite (argOr_present _ _ _ _ _ H) in Hname. simpl in Hname. congruence.
  - intros H. rewrite (argOr_absent _ _ _ _ H) in Hname. congruence.
  - intros selector H. rewrite (argOr_present _ _ _ _ _ H) in Hselector.
    simpl in Hselector. congruence.
  - intros H. rewrite (argOr_absent _ _ _ _ H) in Hselector. congruence.
  - intros flag H. rewrite (argOr_present _ _ _ _ _ H) in Hhost. simpl in Hhost. congruence.
  - intros H. rewrite (argOr_absent _ _ _ _ H) in Hhost. congruence.
Qed.

Lemma scheduling_arguments_reach_the_pod_witness :
  ∃ cfg,
    Sample.resolveArguments
      (list_to_map [("node_selector", VString "a=1, b = 2"); ("host_network", VBool true)])
    = Ret cfg ∧
    ∀ p, buildPod cfg = Ret p →
         PodSpec_NodeSelector (Pod_Spec p) = parseNodeSelector "a=1, b = 2" ∧
         PodSpec_HostNetwork (Pod_Spec p) = true.
Proof.
  eexists. split; [vm_compute; reflexivity |].
  intros p Hp.
  match type of Hp with
  | buildPod ?cfg = _ =>
      assert (Sample.resolveArguments
                (list_to_map [("node_selector", VString "a=1, b = 2");
                              ("host_network", VBool true)]) = Ret cfg)
        as Hcfg by (vm_compute; reflexivity)
  end.
  destruct (scheduling_arguments_reach_the_pod Sample.ParseDuration Sample.randByte
              _ _ _ Hcfg Hp) as (_ & _ & Hselector & _ & Hhost & _).
  split.
  - apply Hselector. vm_compute. reflexivity.
  - apply Hhost. vm_compute. reflexivity.
Defined.

(** X22. In a built plan the pod runs as the service account the plan
    creates, and the cluster role binding grants the cluster role
    [cluster-admin] to that one account in the plan's namespace. *)
Theorem plan_wires_the_service_account
    (cfg : PlanConfig) (listing : GoResult (list NsItem)) (plan : ResourcePlan) :
  buildPlan cfg listing = Ret plan →
  PodSpec_ServiceAccountName (Pod_Spec (pod plan))
  = ObjectMeta_Name (ServiceAccount_ObjectMeta (serviceAccount plan)) ∧
  ClusterRoleBinding_Subjects (clusterRoleBinding plan)
  = [{| Subject_Kind := "ServiceAccount";
        Subject_Name := ObjectMeta_Name (ServiceAccount_ObjectMeta (serviceAccount plan));
        Subject_Namespace :=
          ObjectMeta_Namespace (ServiceAccount_ObjectMeta (serviceAccount plan)) |}] ∧
  ClusterRoleBinding_RoleRef (clusterRoleBinding plan)
  = {| RoleRef_APIGroup := "rbac.authorization.k8s.io";
       RoleRef_Kind := "ClusterRole";
       RoleRef_Name := "cluster-admin" |} ∧
  ObjectMeta_Name (ClusterRoleBinding_ObjectMeta (clusterRoleBinding plan))
  = "must-gather-collector-" +:+ namespace cfg.
Proof.
  intros Hplan.
  apply buildPlan_Ret in Hplan as (p & items & found & Hp & _ & _ & ->).
  unfold buildPod in Hp. apply bind_Ret_inv in Hp as (cs & _ & Hp).
  injection Hp as <-. done.
Qed.

Lemma plan_wires_the_service_account_witness :
  ∃ plan,
    buildPlan (Sample.config []) (Ok [NsNamed "default"]) = Ret plan ∧
    PodSpec_ServiceAccountName (Pod_Spec (pod plan))
    = ObjectMeta_Name (ServiceAccount_ObjectMeta (serviceAccount plan)).
Proof.
  eexists. split; [reflexivity |].
  exact (proj1 (plan_wires_the_service_account (Sample.config []) (Ok [NsNamed "default"])
                  _ eq_refl)).
Defined.
